(** * Highlight on Copy: a shallow embedding of [src/main.ts]

    The plugin listens for the document's copy event, sets three CSS custom
    properties from its settings, toggles the root class
    [copy-highlight-active] with a debounced revert timer and, on the legacy
    CodeMirror 5 editor, marks the first selection range for the same
    duration.  [src/main.ts] holds two revisions of the file; they are
    called variant A (lines 1-206) and variant B (lines 207-393) below, and
    every definition that differs between them takes the variant as its
    first argument.

    Modelling choices, stated once:
    - a JavaScript string is a [string], each character one code unit (the
      code units 0..255);
    - a JavaScript number is [NaN], an infinity or an integer [Num z]:
      these are the numbers that [parseInt] and [Math.max(0, n)] produce.
      [parseInt] rounds the integer it read to binary64 (to nearest, ties
      to even, [Infinity] from 2^1024 on), so that the numbers the plugin
      computes are the integers binary64 holds; a number with a fraction,
      which only a data file written by hand can hold, is outside the
      model, and so is the sign of zero;
    - the slot of a number can also hold [null]: the data file is JSON,
      which writes [NaN] and the infinities as [null], and [loadSettings]
      copies what the file holds;
    - a settings object has the three properties of the interface, each
      with the type the interface gives it, and may lack any of them (the
      persisted blob, the literal [{}]); values of another type in the
      data file are outside the model;
    - time is a logical clock in milliseconds; the host's event loop is the
      function [advance], which runs the timers that are due, oldest
      deadline first, each at its deadline;
    - an object of the host (root style, root class list, the CodeMirror
      markers, the timer table, the data file) is a field of [State], and
      what [getActiveViewOfType] answers comes with the copy event;
    - the document, which variant A adds its style element to, is the
      record [Page] around [State] ([injectStyles], [onunload]);
    - of the form that [display] builds, the change handlers are the
      functions [onChange_backgroundColor], [onChange_foregroundColor] and
      [onChange_duration], and the value shown in the duration field is
      [displayed_duration]; the rest of the form is left out. *)

From Stdlib Require Import Ascii.
From stdpp Require Import base numbers option list strings pretty gmap
  sorting.

#[local] Set Warnings "-clear-no-such-hyp".
#[local] Open Scope string_scope.
#[local] Open Scope list_scope.
#[local] Open Scope Z_scope.

(** ** JavaScript values used by the plugin *)

Module JS.

(** The code unit of a character. *)
Definition code (a : ascii) : Z := Z.of_N (N_of_ascii a).

(** What a property of type [number] holds at run time: [NaN], an
    integer-valued number, one of the two infinities, or [null] (read back
    from the data file). *)
Inductive number : Type :=
| NaN : number
| Num : Z → number
| PosInfinity : number
| NegInfinity : number
| Null : number.

#[global] Instance number_eq_dec : EqDecision number.
Proof. solve_decision. Defined.

(** [ToNumber]: [null] converts to 0. *)
Definition to_number (n : number) : number :=
  match n with Null => Num 0 | _ => n end.

(** [isNaN(n)]. *)
Definition isNaN (n : number) : bool :=
  match to_number n with NaN => true | _ => false end.

(** [Math.max(a, b)]: [NaN] as soon as one argument is, else the larger
    one, the infinities included. *)
Definition Math_max (a b : number) : number :=
  match to_number a with
  | NaN => NaN
  | PosInfinity =>
      match to_number b with NaN => NaN | _ => PosInfinity end
  | NegInfinity => to_number b
  | Num x =>
      match to_number b with
      | NaN => NaN
      | PosInfinity => PosInfinity
      | NegInfinity => Num x
      | Num y => Num (Z.max x y)
      | Null => Num x
      end
  | Null => to_number b
  end.

(** The binary64 number nearest to an integer: an integer below 2^53 in
    absolute value is a binary64 number; a larger one keeps its 53 leading
    bits, rounded to nearest and to the even one of two neighbours equally
    near; a result of 2^1024 or more is an infinity. *)
Definition round_to_double (z : Z) : number :=
  let a := Z.abs z in
  if a <? 2 ^ 53 then Num z
  else
    let e := Z.log2 a - 52 in
    let q := a / 2 ^ e in
    let r := a `mod` 2 ^ e in
    let half := 2 ^ (e - 1) in
    let q' := if (half <? r) || ((r =? half) && Z.odd q) then q + 1
              else q in
    let m := q' * 2 ^ e in
    if 2 ^ 1024 <=? m then (if z <? 0 then NegInfinity else PosInfinity)
    else Num (Z.sgn z * m).

(** The decimal digits of [Number::toString] for a positive integer [x]
    that is a binary64 number: the integer with the fewest significant
    digits that rounds to [x], and the nearest to [x] among those ([k]
    digits are tried for [k] from 1 to 17). *)
Definition shortest_at (x k : Z) : option Z :=
  let scale := 10 ^ (Z.of_nat (String.length (pretty x)) - k) in
  let lo := x / scale * scale in
  let hi := lo + scale in
  let ok (c : Z) := bool_decide (round_to_double c = Num x) in
  match ok lo, ok hi with
  | true, true =>
      Some (if x - lo <? hi - x then lo
            else if hi - x <? x - lo then hi
            else if Z.even (lo / scale) then lo else hi)
  | true, false => Some lo
  | false, true => Some hi
  | false, false => None
  end.

Definition shortest (x : Z) : Z :=
  default x
    (foldr (λ k acc,
       match shortest_at x k with Some c => Some c | None => acc end)
       None (Z.of_nat <$> seq 1 17)).

(** A string without its trailing zeros. *)
Fixpoint strip_zeros (s : string) : string :=
  match s with
  | EmptyString => EmptyString
  | String a r =>
      match strip_zeros r with
      | EmptyString => if code a =? 48 then EmptyString else String a EmptyString
      | r' => String a r'
      end
  end.

(** The exponent notation of a positive integer: the first significant
    digit, a point and the other significant digits if there are any, then
    [e+] and the decimal exponent. *)
Definition exponent_form (c : Z) : string :=
  let ds := pretty c in
  match strip_zeros ds with
  | String a EmptyString =>
      String a ("e+" +:+ pretty (Z.of_nat (String.length ds) - 1))
  | String a r =>
      String a ("." +:+ r +:+ "e+" +:+ pretty (Z.of_nat (String.length ds) - 1))
  | EmptyString => ds
  end.

(** [Number::toString] on a positive integer: below 2^53 its decimal
    digits; else the shortest digits that round to it, followed by zeros
    when the number is below 10^21 and in exponent notation from there on. *)
Definition positive_to_string (x : Z) : string :=
  if x <? 2 ^ 53 then pretty x
  else
    let c := shortest x in
    if c <? 10 ^ 21 then pretty c else exponent_form c.

(** [String(n)] and the conversion of a template literal, for the value of
    a number slot. *)
Definition number_to_string (n : number) : string :=
  match n with
  | NaN => "NaN"
  | Num z =>
      if z =? 0 then "0"
      else if z <? 0 then "-" +:+ positive_to_string (- z)
      else positive_to_string z
  | PosInfinity => "Infinity"
  | NegInfinity => "-Infinity"
  | Null => "null"
  end.

(** What [JSON.parse(JSON.stringify(n))] gives: [NaN] and the infinities
    are written as [null]. *)
Definition JSON_number (n : number) : number :=
  match n with Num z => Num z | _ => Null end.

(** Truthiness of a string: every string but the empty one. *)
Definition truthy (s : string) : bool :=
  match s with EmptyString => false | String _ _ => true end.

(** White space skipped by [parseInt]: TAB, LF, VT, FF, CR (9-13), space
    (32) and the no-break space (160). *)
Definition is_white_space (a : ascii) : bool :=
  ((9 <=? code a) && (code a <=? 13)) || (code a =? 32) || (code a =? 160).

Fixpoint trim_start (s : string) : string :=
  match s with
  | String a r => if is_white_space a then trim_start r else s
  | EmptyString => EmptyString
  end.

(** The value of a character as a digit: 0-9 (codes 48-57), then a-z
    (97-122) and A-Z (65-90) for 10-35; [None] when it is no digit of the
    radix. *)
Definition digit_value (radix : Z) (a : ascii) : option Z :=
  let c := code a in
  let v := if (48 <=? c) && (c <=? 57) then Some (c - 48)
           else if (97 <=? c) && (c <=? 122) then Some (c - 87)
           else if (65 <=? c) && (c <=? 90) then Some (c - 55)
           else None in
  match v with
  | Some d => if d <? radix then Some d else None
  | None => None
  end.

(** The integer written by the longest prefix of digits; [acc] is [None]
    until a digit has been read. *)
Fixpoint parse_digits (radix : Z) (s : string) (acc : option Z) : option Z :=
  match s with
  | EmptyString => acc
  | String a r =>
      match digit_value radix a with
      | Some d => parse_digits radix r (Some (default 0 acc * radix + d))
      | None => acc
      end
  end.

(** The sign read by [parseInt], and the rest of the string: a leading
    [-] (code 45) or [+] (code 43) is taken off. *)
Definition read_sign (s : string) : Z * string :=
  match s with
  | String a r =>
      if code a =? 45 then (-1, r)
      else if code a =? 43 then (1, r)
      else (1, s)
  | EmptyString => (1, s)
  end.

(** The radix read by [parseInt] when none is given, and the rest of the
    string: 16 after a prefix [0x] or [0X] (codes 48, then 120 or 88),
    which is taken off, else 10. *)
Definition read_radix (s : string) : Z * string :=
  match s with
  | String a (String b r) =>
      if (code a =? 48) && ((code b =? 120) || (code b =? 88)) then (16, r)
      else (10, s)
  | _ => (10, s)
  end.

(** [parseInt(s)] with no radix argument: skip white space, read the sign,
    read the radix, read digits up to the first character that is none;
    [NaN] when no digit was read, else the binary64 number nearest to the
    integer read.  The result [-0] is [Num 0]. *)
Definition parseInt (s : string) : number :=
  let '(sign, s2) := read_sign (trim_start s) in
  let '(radix, s3) := read_radix s2 in
  match parse_digits radix s3 None with
  | Some m => round_to_double (sign * m)
  | None => NaN
  end.

End JS.

(** ** Settings *)

(** The two revisions of [src/main.ts]. *)
Inductive Variant : Type := VariantA | VariantB.

#[global] Instance Variant_eq_dec : EqDecision Variant.
Proof. solve_decision. Defined.

(** An object with the properties of [interface HighlightOnCopySettings].
    A property the object does not own is [None]; reading it gives
    [undefined].  The plugin's settings own all three once [loadSettings]
    has run (lemma [loadSettings_owns_all]). *)
Record HighlightOnCopySettings : Type := {
  backgroundColor : option string;
  foregroundColor : option string;
  duration : option JS.number  (* ms *)
}.

#[global] Instance HighlightOnCopySettings_eq_dec :
  EqDecision HighlightOnCopySettings.
Proof. solve_decision. Defined.

(** The object literal [{}]. *)
Definition empty_object : HighlightOnCopySettings :=
  {| backgroundColor := None; foregroundColor := None; duration := None |}.

(** [const DEFAULT_SETTINGS] (variant A lines 16-20, variant B lines
    222-226). *)
Definition DEFAULT_SETTINGS (v : Variant) : HighlightOnCopySettings :=
  {| backgroundColor :=
       Some (match v with
             | VariantA => "rgba(0, 255, 0, 0.5)"
             | VariantB => ""
             end);
     foregroundColor := Some "";
     duration := Some (JS.Num 100) |}.

(** A property after [target[key] = source[key]] ran for the own
    properties of the source. *)
Definition assign_property {A : Type} (target source : option A) : option A :=
  match source with
  | Some x => Some x
  | None => target
  end.

(** One source of [Object.assign]: [null] and [undefined] ([None]) are
    skipped, the own properties of an object are copied over the target's. *)
Definition assign_source (target : HighlightOnCopySettings)
    (source : option HighlightOnCopySettings) : HighlightOnCopySettings :=
  match source with
  | None => target
  | Some src =>
      {| backgroundColor :=
           assign_property (backgroundColor target) (backgroundColor src);
         foregroundColor :=
           assign_property (foregroundColor target) (foregroundColor src);
         duration := assign_property (duration target) (duration src) |}
  end.

(** [Object.assign(target, ...sources)]: the sources in order, left to
    right. *)
Definition Object_assign (target : HighlightOnCopySettings)
    (sources : list (option HighlightOnCopySettings))
    : HighlightOnCopySettings :=
  foldl assign_source target sources.

(** Truthiness of a value that is a string or [undefined]. *)
Definition truthy (x : option string) : bool :=
  match x with
  | Some s => JS.truthy s
  | None => false
  end.

(** [a || b]. *)
Definition js_or (a b : option string) : option string :=
  if truthy a then a else b.

(** A string or [undefined] converted to a string. *)
Definition to_string (x : option string) : string := default "undefined" x.

(** The template literal [`${d}ms`]. *)
Definition template_ms (d : option JS.number) : string :=
  match d with
  | Some n => JS.number_to_string n
  | None => "undefined"
  end +:+ "ms".

(** ** The host: editor handles, timers, the document root *)

(** A CodeMirror 5 position [{line, ch}]. *)
Record Pos : Type := { line : Z; ch : Z }.

(** A selection range [{anchor, head}]. *)
Record Range : Type := { anchor : Pos; head : Pos }.

(** The options object given to [markText]. *)
Record MarkOptions : Type := {
  className : string;
  inclusiveLeft : bool;
  inclusiveRight : bool
}.

(** A [TextMarker] that [markText] returned: the editor it belongs to, the
    range and the options of the call. *)
Record TextMarker : Type := {
  marker_id : nat;
  marker_editor : nat;
  marker_from : Pos;
  marker_to : Pos;
  marker_options : MarkOptions
}.

(** The legacy handle [editor.cm]: whether it has a [markText] method, and
    what [listSelections()] returns ([None] for [null] or [undefined]). *)
Record CodeMirror5 : Type := {
  cm_id : nat;
  has_markText : bool;
  listSelections : option (list Range)
}.

(** An [Editor]: whether it has a property [state], and its property [cm]
    ([None]: no such property; a property [cm] whose value is [undefined]
    behaves the same in [onCopy], which does nothing for it either way). *)
Record Editor : Type := {
  has_state : bool;
  cm : option CodeMirror5
}.

(** The active [MarkdownView]. *)
Record View : Type := {
  getMode : string;
  editor : Editor
}.

#[global] Instance Pos_eq_dec : EqDecision Pos.
Proof. solve_decision. Defined.
#[global] Instance Range_eq_dec : EqDecision Range.
Proof. solve_decision. Defined.
#[global] Instance MarkOptions_eq_dec : EqDecision MarkOptions.
Proof. solve_decision. Defined.
#[global] Instance TextMarker_eq_dec : EqDecision TextMarker.
Proof. solve_decision. Defined.

(** The two callbacks the plugin hands to [window.setTimeout]: the arrow
    function of [onCopy] and [() => marker.clear()]. *)
Inductive Callback : Type :=
| RevertHighlight : Callback
| ClearMarker : nat → Callback.

#[global] Instance Callback_eq_dec : EqDecision Callback.
Proof. solve_decision. Defined.

(** A pending timer: its handle, its deadline on the clock, its callback. *)
Record Timer : Type := {
  timer_id : nat;
  timer_due : Z;
  timer_callback : Callback
}.

#[global] Instance Timer_eq_dec : EqDecision Timer.
Proof. solve_decision. Defined.

(** What an observer of the page sees happen, with the time it happens. *)
Inductive Effect : Type :=
| ClassAdded : string → Effect
| ClassRemoved : string → Effect
| MarkerCreated : TextMarker → Effect
| MarkerCleared : nat → Effect.

#[global] Instance Effect_eq_dec : EqDecision Effect.
Proof. solve_decision. Defined.

(** The plugin instance and the part of the host it acts on. *)
Record State : Type := {
  settings : HighlightOnCopySettings;        (* this.settings *)
  highlightTimeout : option nat;             (* this.highlightTimeout *)
  data : option HighlightOnCopySettings;     (* the data file of the host *)
  style : gmap string string;     (* document.documentElement.style *)
  classList : gset string;        (* document.documentElement.classList *)
  markers : list TextMarker;      (* markers made and not cleared yet *)
  next_marker : nat;
  timers : list Timer;            (* pending timers, by deadline *)
  next_timer : nat;
  now : Z;                        (* the clock, ms *)
  trace : list (Z * Effect)       (* the past, oldest first *)
}.

(** Field updates of [State]. *)
Definition set_settings (x : HighlightOnCopySettings) (st : State) : State :=
  {| settings := x; highlightTimeout := highlightTimeout st; data := data st;
     style := style st; classList := classList st; markers := markers st;
     next_marker := next_marker st; timers := timers st;
     next_timer := next_timer st; now := now st; trace := trace st |}.

Definition set_highlightTimeout (x : option nat) (st : State) : State :=
  {| settings := settings st; highlightTimeout := x; data := data st;
     style := style st; classList := classList st; markers := markers st;
     next_marker := next_marker st; timers := timers st;
     next_timer := next_timer st; now := now st; trace := trace st |}.

Definition set_data (x : option HighlightOnCopySettings) (st : State) : State :=
  {| settings := settings st; highlightTimeout := highlightTimeout st;
     data := x; style := style st; classList := classList st;
     markers := markers st; next_marker := next_marker st;
     timers := timers st; next_timer := next_timer st; now := now st;
     trace := trace st |}.

Definition set_style (x : gmap string string) (st : State) : State :=
  {| settings := settings st; highlightTimeout := highlightTimeout st;
     data := data st; style := x; classList := classList st;
     markers := markers st; next_marker := next_marker st;
     timers := timers st; next_timer := next_timer st; now := now st;
     trace := trace st |}.

Definition set_classList (x : gset string) (st : State) : State :=
  {| settings := settings st; highlightTimeout := highlightTimeout st;
     data := data st; style := style st; classList := x;
     markers := markers st; next_marker := next_marker st;
     timers := timers st; next_timer := next_timer st; now := now st;
     trace := trace st |}.

Definition set_markers (x : list TextMarker) (n : nat) (st : State) : State :=
  {| settings := settings st; highlightTimeout := highlightTimeout st;
     data := data st; style := style st; classList := classList st;
     markers := x; next_marker := n; timers := timers st;
     next_timer := next_timer st; now := now st; trace := trace st |}.

Definition set_timers (x : list Timer) (n : nat) (st : State) : State :=
  {| settings := settings st; highlightTimeout := highlightTimeout st;
     data := data st; style := style st; classList := classList st;
     markers := markers st; next_marker := next_marker st; timers := x;
     next_timer := n; now := now st; trace := trace st |}.

Definition set_now (x : Z) (st : State) : State :=
  {| settings := settings st; highlightTimeout := highlightTimeout st;
     data := data st; style := style st; classList := classList st;
     markers := markers st; next_marker := next_marker st;
     timers := timers st; next_timer := next_timer st; now := x;
     trace := trace st |}.

(** An effect enters the trace with the time on the clock. *)
Definition record_effect (e : Effect) (st : State) : State :=
  {| settings := settings st; highlightTimeout := highlightTimeout st;
     data := data st; style := style st; classList := classList st;
     markers := markers st; next_marker := next_marker st;
     timers := timers st; next_timer := next_timer st; now := now st;
     trace := trace st ++ [(now st, e)] |}.

(** *** The root element *)

(** [style.removeProperty(name)]. *)
Definition removeProperty (name : string) (st : State) : State :=
  set_style (delete name (style st)) st.

(** [style.setProperty(name, value)]: an empty value removes the
    declaration, any other value replaces it.  The value is stored as
    given; what the CSS parser would refuse is not modelled. *)
Definition setProperty (name value : string) (st : State) : State :=
  if decide (value = "") then removeProperty name st
  else set_style (<[name := value]> (style st)) st.

(** [classList.add(c)]. *)
Definition classList_add (c : string) (st : State) : State :=
  record_effect (ClassAdded c) (set_classList ({[c]} ∪ classList st) st).

(** [classList.remove(c)]. *)
Definition classList_remove (c : string) (st : State) : State :=
  record_effect (ClassRemoved c) (set_classList (classList st ∖ {[c]}) st).

(** *** Timers *)

(** The delay argument of [setTimeout] is a Web IDL [long]: the number is
    reduced modulo 2^32 into the signed 32-bit range ([NaN], the
    infinities, [null] and [undefined] give 0), and a negative delay counts
    as 0. *)
Definition to_long (z : Z) : Z :=
  let m := z `mod` 2 ^ 32 in
  if 2 ^ 31 <=? m then m - 2 ^ 32 else m.

Definition timer_delay (d : option JS.number) : Z :=
  match d with
  | Some (JS.Num z) => Z.max 0 (to_long z)
  | _ => 0
  end.

(** The timer table is kept in the order the timers become due: by
    deadline, and by age among equal deadlines. *)
Fixpoint insert_timer (tm : Timer) (l : list Timer) : list Timer :=
  match l with
  | [] => [tm]
  | x :: r =>
      if timer_due x <=? timer_due tm then x :: insert_timer tm r
      else tm :: l
  end.

(** [window.setTimeout(callback, delay)]: returns the new handle. *)
Definition setTimeout (callback : Callback) (delay : option JS.number)
    (st : State) : nat * State :=
  let id := next_timer st in
  let tm := {| timer_id := id;
               timer_due := now st + timer_delay delay;
               timer_callback := callback |} in
  (id, set_timers (insert_timer tm (timers st)) (S id) st).

(** [window.clearTimeout(id)]: no effect when no such timer is pending. *)
Definition clearTimeout (id : nat) (st : State) : State :=
  set_timers (filter (λ tm, timer_id tm ≠ id) (timers st)) (next_timer st) st.

(** *** The legacy editor *)

(** [cm.markText(from, to, options)]: returns the id of the new marker. *)
Definition markText (c : CodeMirror5) (from to : Pos) (options : MarkOptions)
    (st : State) : nat * State :=
  let id := next_marker st in
  let m := {| marker_id := id; marker_editor := cm_id c;
              marker_from := from; marker_to := to;
              marker_options := options |} in
  (id, record_effect (MarkerCreated m)
         (set_markers (markers st ++ [m]) (S id) st)).

(** [marker.clear()]. *)
Definition marker_clear (id : nat) (st : State) : State :=
  record_effect (MarkerCleared id)
    (set_markers (filter (λ m, marker_id m ≠ id) (markers st))
       (next_marker st) st).

(** *** The data file *)

(** The host keeps the data file as JSON text.  [data] is the object that
    parsing the file gives; [JSON_image] is that object for the file that
    [JSON.stringify(blob)] writes: a property the blob does not own is left
    out, a string comes back as it was, and a number that is [NaN] or an
    infinity comes back as [null]. *)
Definition JSON_image (blob : HighlightOnCopySettings)
    : HighlightOnCopySettings :=
  {| backgroundColor := backgroundColor blob;
     foregroundColor := foregroundColor blob;
     duration := JS.JSON_number <$> duration blob |}.

(** [this.loadData()]. *)
Definition loadData (st : State) : option HighlightOnCopySettings := data st.

(** [this.saveData(blob)]. *)
Definition saveData (blob : HighlightOnCopySettings) (st : State) : State :=
  set_data (Some (JSON_image blob)) st.

(** ** The plugin *)

(** The root class of an active highlight. *)
Definition ACTIVE : string := "copy-highlight-active".

(** [loadSettings] (lines 69-75 and 267-273):
    [this.settings = Object.assign({}, DEFAULT_SETTINGS, await this.loadData())]. *)
Definition loadSettings (v : Variant) (st : State) : State :=
  set_settings
    (Object_assign empty_object [Some (DEFAULT_SETTINGS v); loadData st]) st.

(** [saveSettings] (lines 77-79 and 275-277). *)
Definition saveSettings (st : State) : State := saveData (settings st) st.

(** The custom properties of the two variants. *)
Definition prop_bg (v : Variant) : string :=
  match v with VariantA => "--hbg" | VariantB => "--highlight-on-copy-bg" end.
Definition prop_fg (v : Variant) : string :=
  match v with VariantA => "--hfg" | VariantB => "--highlight-on-copy-fg" end.
Definition prop_dur (v : Variant) : string :=
  match v with
  | VariantA => "--hdur"
  | VariantB => "--highlight-on-copy-duration"
  end.

(** The three style parameters: lines 85-96 of [onCopy] in variant A, the
    method [applyStyles] (lines 244-265) in variant B. *)
Definition applyStyles (v : Variant) (st : State) : State :=
  match v with
  | VariantA =>
      let st := setProperty "--hbg" (to_string (backgroundColor (settings st))) st in
      let st := setProperty "--hfg"
                  (to_string (js_or (foregroundColor (settings st))
                                (Some "inherit"))) st in
      setProperty "--hdur" (template_ms (duration (settings st))) st
  | VariantB =>
      let st :=
        if truthy (backgroundColor (settings st))
        then setProperty "--highlight-on-copy-bg"
               (to_string (backgroundColor (settings st))) st
        else removeProperty "--highlight-on-copy-bg" st in
      let st :=
        if truthy (foregroundColor (settings st))
        then setProperty "--highlight-on-copy-fg"
               (to_string (foregroundColor (settings st))) st
        else removeProperty "--highlight-on-copy-fg" st in
      setProperty "--highlight-on-copy-duration"
        (template_ms (duration (settings st))) st
  end.

(** [isCM6] (lines 117-119 and 304-306):
    ["state" in editor && !("cm" in editor)]. *)
Definition isCM6 (e : Editor) : bool :=
  has_state e && negb (bool_decide (is_Some (cm e))).

(** Lines 129-137 and 316-324 of [handleCM5Highlight]: the pair
    [(from, to)] for a selection [{anchor, head}]. *)
Definition normalize (sel : Range) : Pos * Pos :=
  if (line (head sel) <? line (anchor sel))
     || ((line (head sel) =? line (anchor sel))
         && (ch (head sel) <? ch (anchor sel)))
  then (head sel, anchor sel)
  else (anchor sel, head sel).

(** The options of the call to [markText]. *)
Definition highlight_options : MarkOptions :=
  {| className := "highlight-on-copy";
     inclusiveLeft := true;
     inclusiveRight := true |}.

(** [handleCM5Highlight] (lines 121-145 and 308-332). *)
Definition handleCM5Highlight (e : Editor) (st : State) : State :=
  match cm e with
  | None => st                                     (* !cm?.markText *)
  | Some c =>
      if negb (has_markText c) then st             (* !cm?.markText *)
      else
        match listSelections c with
        | None => st                               (* !sels?.length *)
        | Some [] => st                            (* !sels?.length *)
        | Some (sel :: _) =>
            let '(from, to) := normalize sel in
            let '(marker, st) := markText c from to highlight_options st in
            (setTimeout (ClearMarker marker) (duration (settings st)) st).2
        end
  end.

(** [onCopy] (lines 81-115 and 279-302); [view] is what
    [getActiveViewOfType(MarkdownView)] returns. *)
Definition onCopy (v : Variant) (view : option View) (st : State) : State :=
  match view with
  | None => st
  | Some view =>
      let st := applyStyles v st in
      let st :=
        match highlightTimeout st with
        | Some id => clearTimeout id st
        | None => st
        end in
      let st := classList_add ACTIVE st in
      let '(id, st) := setTimeout RevertHighlight (duration (settings st)) st in
      let st := set_highlightTimeout (Some id) st in
      if bool_decide (getMode view = "source") then
        if negb (isCM6 (editor view)) then handleCM5Highlight (editor view) st
        else st
      else st
  end.

(** The body of a timer callback. *)
Definition run_callback (c : Callback) (st : State) : State :=
  match c with
  | RevertHighlight =>
      set_highlightTimeout None (classList_remove ACTIVE st)
  | ClearMarker id => marker_clear id st
  end.

(** *** The settings panel *)

(** The change handler of the background field (lines 168-172 and
    356-359). *)
Definition onChange_backgroundColor (v : Variant) (text : string)
    (st : State) : State :=
  let value :=
    match v with
    | VariantA =>
        js_or (Some text) (backgroundColor (DEFAULT_SETTINGS VariantA))
    | VariantB => Some text
    end in
  let st :=
    set_settings
      {| backgroundColor := value;
         foregroundColor := foregroundColor (settings st);
         duration := duration (settings st) |} st in
  saveSettings st.

(** The change handler of the foreground field (lines 184-187 and
    371-374). *)
Definition onChange_foregroundColor (text : string) (st : State) : State :=
  let st :=
    set_settings
      {| backgroundColor := backgroundColor (settings st);
         foregroundColor := Some text;
         duration := duration (settings st) |} st in
  saveSettings st.

(** The value the duration handler stores: lines 198-201 and 385-388. *)
Definition duration_of_text (v : Variant) (text : string) : option JS.number :=
  let n := JS.parseInt text in
  if JS.isNaN n then duration (DEFAULT_SETTINGS v)
  else Some (JS.Math_max (JS.Num 0) n).

(** The change handler of the duration field (lines 197-203 and
    384-390). *)
Definition onChange_duration (v : Variant) (text : string) (st : State)
    : State :=
  let st :=
    set_settings
      {| backgroundColor := backgroundColor (settings st);
         foregroundColor := foregroundColor (settings st);
         duration := duration_of_text v text |} st in
  saveSettings st.

(** ** The event loop *)

(** The timers due at time [t] run in the order of the table, each at its
    deadline; then the clock shows [t]. *)
Definition fire (st : State) (tm : Timer) : State :=
  run_callback (timer_callback tm) (set_now (timer_due tm) st).

Definition advance (t : Z) (st : State) : State :=
  let ready := filter (λ tm, timer_due tm ≤ t) (timers st) in
  let later := filter (λ tm, ¬ timer_due tm ≤ t) (timers st) in
  set_now t (foldl fire (set_timers later (next_timer st) st) ready).

(** What happens to the plugin after it is loaded. *)
Inductive Event : Type :=
| Copy : option View → Event          (* the document's copy event *)
| Elapse : Z → Event                  (* so many ms pass *)
| ChangeBackground : string → Event   (* the settings panel *)
| ChangeForeground : string → Event
| ChangeDuration : string → Event.

Definition step (v : Variant) (st : State) (e : Event) : State :=
  match e with
  | Copy view => onCopy v view st
  | Elapse dt => advance (now st + Z.max 0 dt) st
  | ChangeBackground text => onChange_backgroundColor v text st
  | ChangeForeground text => onChange_foregroundColor text st
  | ChangeDuration text => onChange_duration v text st
  end.

Definition run (v : Variant) (st : State) (events : list Event) : State :=
  foldl (step v) st events.

(** The host before the plugin is loaded: [blob] is the data file. *)
Definition initial (blob : option HighlightOnCopySettings) : State :=
  {| settings := empty_object; highlightTimeout := None; data := blob;
     style := ∅; classList := ∅; markers := []; next_marker := 0;
     timers := []; next_timer := 1; now := 0; trace := [] |}.

(** [onload] (lines 26-31 and 232-236), as far as the state above goes:
    the settings are loaded, then the copy handler is registered. *)
Definition onload (v : Variant) (blob : option HighlightOnCopySettings)
    : State :=
  loadSettings v (initial blob).

(** ** Notions used in the statements *)

(** [a] comes before [b] in the document: by line, then by column. *)
Definition before (a b : Pos) : Prop :=
  line a < line b ∨ (line a = line b ∧ ch a < ch b).

(** The guard of [handleCM5Highlight]: no legacy handle or none with a
    [markText] method, or a selection list that is absent or empty. *)
Definition legacy_guard (e : Editor) : bool :=
  match cm e with
  | None => true
  | Some c =>
      negb (has_markText c)
      || match listSelections c with
         | None | Some [] => true
         | Some (_ :: _) => false
         end
  end.

(** A legacy editor with a [markText] method and the given selections. *)
Definition legacy_editor (id : nat) (sels : list Range) : Editor :=
  {| has_state := false;
     cm := Some {| cm_id := id; has_markText := true;
                   listSelections := Some sels |} |}.

(** A source view on the legacy editor with the given selections. *)
Definition legacy_view (id : nat) (sels : list Range) : View :=
  {| getMode := "source"; editor := legacy_editor id sels |}.

(** A modern source view: the editor has [state] and no [cm]. *)
Definition modern_view : View :=
  {| getMode := "source"; editor := {| has_state := true; cm := None |} |}.

(** The last statement of [onCopy] reaches the legacy highlighter past its
    guard. *)
Definition legacy_applies (view : View) : bool :=
  bool_decide (getMode view = "source")
  && negb (isCM6 (editor view))
  && negb (legacy_guard (editor view)).

(** The marker and the timer [handleCM5Highlight] makes in state [st] for
    the range from [from] to [to] of editor [id]. *)
Definition new_marker (st : State) (id : nat) (from to : Pos) : TextMarker :=
  {| marker_id := next_marker st; marker_editor := id;
     marker_from := from; marker_to := to;
     marker_options := highlight_options |}.

Definition new_marker_timer (st : State) : Timer :=
  {| timer_id := next_timer st;
     timer_due := now st + timer_delay (duration (settings st));
     timer_callback := ClearMarker (next_marker st) |}.

(** The revert timer [onCopy] sets in state [st]. *)
Definition new_revert_timer (st : State) : Timer :=
  {| timer_id := next_timer st;
     timer_due := now st + timer_delay (duration (settings st));
     timer_callback := RevertHighlight |}.

(** [onCopy] before its last statement (lines 85-107 and 283-294): the
    style parameters are set, the pending revert timer is cleared, the root
    class is added and the new revert timer is set. *)
Definition highlight_started (v : Variant) (st : State) : State :=
  let st := applyStyles v st in
  let st :=
    match highlightTimeout st with
    | Some id => clearTimeout id st
    | None => st
    end in
  let st := classList_add ACTIVE st in
  let '(id, st) := setTimeout RevertHighlight (duration (settings st)) st in
  set_highlightTimeout (Some id) st.

(** The timers left by the [clearTimeout] of [onCopy]. *)
Definition uncancelled (st : State) : list Timer :=
  match highlightTimeout st with
  | Some id => filter (λ tm, timer_id tm ≠ id) (timers st)
  | None => timers st
  end.

(** The pending timers that revert the highlight. *)
Definition revert_timers (st : State) : list Timer :=
  filter (λ tm, timer_callback tm = RevertHighlight) (timers st).

(** The pending timers that clear marker [m]. *)
Definition marker_timers (m : nat) (st : State) : list Timer :=
  filter (λ tm, timer_callback tm = ClearMarker m) (timers st).

(** The effect of a callback on the page. *)
Definition callback_effect (c : Callback) : Effect :=
  match c with
  | RevertHighlight => ClassRemoved ACTIVE
  | ClearMarker m => MarkerCleared m
  end.

(** The times at which the root class was removed, oldest first. *)
Definition removals (st : State) : list Z :=
  (filter (λ p, p.2 = ClassRemoved ACTIVE) (trace st)).*1.

(** The times at which marker [m] was cleared, oldest first. *)
Definition clears (m : nat) (st : State) : list Z :=
  (filter (λ p, p.2 = MarkerCleared m) (trace st)).*1.

(** [n >= 0] on a number. *)
Definition number_nonneg (n : JS.number) : bool :=
  match n with
  | JS.Num z => 0 <=? z
  | JS.NaN => false
  | JS.PosInfinity => true
  | JS.NegInfinity => false
  | JS.Null => true
  end.

(** [settings.duration >= 0]. *)
Definition duration_nonneg (s : HighlightOnCopySettings) : bool :=
  match duration s with
  | Some n => number_nonneg n
  | None => false
  end.

(** A string is empty or starts with a decimal digit. *)
Definition digit_or_end (s : string) : Prop :=
  match s with
  | EmptyString => True
  | String a _ => 48 ≤ JS.code a ≤ 57
  end.

(** The settings own the three properties. *)
Definition owns_all (s : HighlightOnCopySettings) : Prop :=
  is_Some (backgroundColor s) ∧ is_Some (foregroundColor s)
  ∧ is_Some (duration s).

(** The timer table is in the order of the deadlines, and no pending timer
    is overdue. *)
Definition timers_in_order (st : State) : Prop :=
  StronglySorted (λ a b, timer_due a ≤ timer_due b) (timers st)
  ∧ ∀ tm, tm ∈ timers st → now st ≤ timer_due tm.

(** What the plugin keeps true of its timers: handles are below the next
    handle; the timer whose handle is [highlightTimeout], and no other,
    reverts the highlight; at most one timer does; a timer clears a marker
    that was made, and so did every timer that ran. *)
Record wf (st : State) : Prop := {
  wf_ids : ∀ tm, tm ∈ timers st → (timer_id tm < next_timer st)%nat;
  wf_handle : ∀ i, highlightTimeout st = Some i → (i < next_timer st)%nat;
  wf_revert : ∀ tm, tm ∈ timers st →
    (timer_callback tm = RevertHighlight
     ↔ highlightTimeout st = Some (timer_id tm));
  wf_one : (length (revert_timers st) ≤ 1)%nat;
  wf_markers : ∀ tm m, tm ∈ timers st →
    timer_callback tm = ClearMarker m → (m < next_marker st)%nat;
  wf_trace : ∀ t m, (t, MarkerCleared m) ∈ trace st →
    (m < next_marker st)%nat
}.

(** Marker [m] is marked and timer [tm], the only one that clears it, is
    pending. *)
Record marker_pending (m : nat) (tm : Timer) (st : State) : Prop := {
  pending_wf : wf st;
  pending_timer : marker_timers m st = [tm];
  pending_marked : m ∈ marker_id <$> markers st;
  pending_clears : clears m st = [];
  pending_made : (m < next_marker st)%nat;
  pending_now : now st ≤ timer_due tm
}.

(** Marker [m] was cleared once, at time [D], and no timer clears it. *)
Record marker_done (m : nat) (D : Z) (st : State) : Prop := {
  done_wf : wf st;
  done_timer : marker_timers m st = [];
  done_marked : m ∉ marker_id <$> markers st;
  done_clears : clears m st = [D];
  done_made : (m < next_marker st)%nat;
  done_now : D ≤ now st
}.

(** ** Loading and unloading the plugin *)

(** An element of the document as far as the plugin looks at it: its
    [id] and its text.  Descendants are not modelled. *)
Record Element : Type := { element_id : string; textContent : string }.

#[global] Instance Element_eq_dec : EqDecision Element.
Proof. solve_decision. Defined.

(** The page: the children of [document.head] and the elements after
    them, both in document order, and the state above.  The elements
    before them (the root, the head) are taken not to carry the [id] the
    plugin looks for. *)
Record Page : Type := {
  doc_head : list Element;
  doc_body : list Element;
  host : State
}.

(** The [id] of the style element of variant A (lines 34 and 40). *)
Definition STYLE_ID : string := "highlight-on-copy-styles".

(** The style sheet of variant A (lines 41-65). *)
Definition STYLE_TEXT : string := "
		:root {
		  --hbg: transparent;
		  --hfg: inherit;
		  --hdur: 100ms;
		}
  
		.copy-highlight-active .cm-content ::selection,
		.copy-highlight-active .markdown-preview-view ::selection {
		  background-color: var(--hbg) !important;
		  color:            var(--hfg) !important;
		  transition:
			background-color var(--hdur) ease-out,
			color            var(--hdur) ease-out;
		}
  
		.cm-editor .highlight-on-copy,
		.cm-selectionBackground.highlight-on-copy {
		  background-color: var(--hbg) !important;
		  color:            var(--hfg) !important;
		  transition:
			background-color var(--hdur) ease-out,
			color            var(--hdur) ease-out;
		}
	  ".

(** A list of elements without the first one with the given [id]; [None]
    when there is none. *)
Fixpoint remove_first (id : string) (l : list Element)
    : option (list Element) :=
  match l with
  | [] => None
  | x :: r =>
      if decide (element_id x = id) then Some r
      else match remove_first id r with
           | Some r' => Some (x :: r')
           | None => None
           end
  end.

(** [injectStyles] (lines 38-67): a new style element is appended to
    [document.head]. *)
Definition injectStyles (p : Page) : Page :=
  {| doc_head := doc_head p
                 ++ [{| element_id := STYLE_ID; textContent := STYLE_TEXT |}];
     doc_body := doc_body p;
     host := host p |}.

(** [onload] on the page (lines 26-31 and 232-236): the settings are
    loaded, the copy handler is registered and, in variant A, the style
    sheet is injected. *)
Definition onload_page (v : Variant) (p : Page) : Page :=
  let p := {| doc_head := doc_head p; doc_body := doc_body p;
              host := loadSettings v (host p) |} in
  match v with
  | VariantA => injectStyles p
  | VariantB => p
  end.

(** [onunload] (lines 33-36 and 238-242).  Variant A removes the element
    [document.getElementById] finds, the first one in document order with
    the [id] of the style element, if there is one; variant B removes the
    three custom properties from the root. *)
Definition onunload (v : Variant) (p : Page) : Page :=
  match v with
  | VariantA =>
      match remove_first STYLE_ID (doc_head p) with
      | Some h => {| doc_head := h; doc_body := doc_body p; host := host p |}
      | None =>
          match remove_first STYLE_ID (doc_body p) with
          | Some b =>
              {| doc_head := doc_head p; doc_body := b; host := host p |}
          | None => p
          end
      end
  | VariantB =>
      {| doc_head := doc_head p;
         doc_body := doc_body p;
         host := removeProperty "--highlight-on-copy-duration"
                   (removeProperty "--highlight-on-copy-fg"
                      (removeProperty "--highlight-on-copy-bg" (host p))) |}
  end.

(** *** What the settings panel shows *)

(** The value [display] gives the duration field (lines 196 and 383):
    [String(this.plugin.settings.duration)]. *)
Definition displayed_duration (s : HighlightOnCopySettings) : string :=
  match duration s with
  | Some n => JS.number_to_string n
  | None => "undefined"
  end.

(** *** Further notions used in the statements *)

(** The selection a copy event marks, with its legacy handle: the view is
    in source mode, the editor has a [cm] with a [markText] method, and
    the selection list has a first range. *)
Definition marked_selection (view : View) : option (CodeMirror5 * Range) :=
  if bool_decide (getMode view = "source") then
    match cm (editor view) with
    | Some c =>
        if has_markText c then
          match listSelections c with
          | Some (sel :: _) => Some (c, sel)
          | _ => None
          end
        else None
    | None => None
    end
  else None.

(** No highlight is showing. *)
Definition idle (st : State) : Prop :=
  (ACTIVE ∉ classList st)
  ∧ highlightTimeout st = None
  ∧ revert_timers st = [].

(** A highlight is showing: the root class is there, and the one revert
    timer, whose handle the plugin holds, is not overdue. *)
Definition highlighting (st : State) : Prop :=
  ACTIVE ∈ classList st
  ∧ ∃ tm, revert_timers st = [tm]
          ∧ highlightTimeout st = Some (timer_id tm)
          ∧ now st ≤ timer_due tm.

(** Every marker has a pending timer that clears it. *)
Definition markers_timed (st : State) : Prop :=
  ∀ m, m ∈ marker_id <$> markers st →
       marker_timers m st ≠ [] ∧ (m < next_marker st)%nat.

(** An event is an edit in the settings panel. *)
Definition is_edit (e : Event) : bool :=
  match e with
  | ChangeBackground _ | ChangeForeground _ | ChangeDuration _ => true
  | Copy _ | Elapse _ => false
  end.

Definition has_edit (events : list Event) : bool := existsb is_edit events.

(** The number of elements with a given [id]. *)
Definition count_id (id : string) (l : list Element) : nat :=
  length (filter (λ x, element_id x = id) l).

(** A character is no decimal digit. *)
Definition not_digit (a : ascii) : Prop := ¬ (48 ≤ JS.code a ≤ 57).

(** What may follow the digits: nothing, or a character that is no
    decimal digit. *)
Definition ends_digits (s : string) : Prop :=
  match s with
  | EmptyString => True
  | String a _ => not_digit a
  end.

(** All characters of a string are white space. *)
Fixpoint all_white_space (s : string) : bool :=
  match s with
  | EmptyString => true
  | String a r => JS.is_white_space a && all_white_space r
  end.

(** * Properties *)

(** ** The built-in functions on a few inputs *)

Example parseInt_250 : JS.parseInt "250" = JS.Num 250.
Proof. reflexivity. Qed.
Example parseInt_px : JS.parseInt "  12px" = JS.Num 12.
Proof. reflexivity. Qed.
Example parseInt_neg : JS.parseInt "-5" = JS.Num (-5).
Proof. reflexivity. Qed.
Example parseInt_hex : JS.parseInt "0x1F" = JS.Num 31.
Proof. reflexivity. Qed.
Example parseInt_abc : JS.parseInt "abc" = JS.NaN.
Proof. reflexivity. Qed.
Example parseInt_empty : JS.parseInt "" = JS.NaN.
Proof. reflexivity. Qed.
Example parseInt_frac : JS.parseInt "1.5" = JS.Num 1.
Proof. reflexivity. Qed.
Example parseInt_neg_hex : JS.parseInt " -0X10" = JS.Num (-16).
Proof. reflexivity. Qed.
Example parseInt_plus : JS.parseInt "+7" = JS.Num 7.
Proof. reflexivity. Qed.
Example parseInt_0x : JS.parseInt "0x" = JS.NaN.
Proof. reflexivity. Qed.
Example to_string_200 : JS.number_to_string (JS.Num 200) = "200".
Proof. reflexivity. Qed.
Example to_string_neg : JS.number_to_string (JS.Num (-5)) = "-5".
Proof. reflexivity. Qed.

(** Binary64: 2^53 + 1 is rounded to 2^53 and 2^53 + 3 to 2^53 + 4 (ties
    go to the even neighbour), and an integer of 2^1024 or more is an
    infinity. *)
Example parseInt_2_53_1 :
  JS.parseInt "9007199254740993" = JS.Num 9007199254740992.
Proof. by vm_compute. Qed.

Example parseInt_2_53_3 :
  JS.parseInt "9007199254740995" = JS.Num 9007199254740996.
Proof. by vm_compute. Qed.

Example parseInt_overflow :
  JS.parseInt (pretty (10 ^ 400)%N) = JS.PosInfinity
  ∧ JS.parseInt ("-" +:+ pretty (10 ^ 400)%N) = JS.NegInfinity
  ∧ JS.round_to_double (2 ^ 1024 - 2 ^ 970 - 1)
    = JS.Num (2 ^ 1024 - 2 ^ 971)
  ∧ JS.round_to_double (2 ^ 1024 - 2 ^ 970) = JS.PosInfinity.
Proof. by vm_compute. Qed.

(** The digits shown for a number: the shortest that round to it, and
    exponent notation from 10^21 on. *)
Example to_string_2_64 :
  JS.number_to_string (JS.Num (2 ^ 64)) = "18446744073709552000".
Proof. by vm_compute. Qed.

Example to_string_1e21 :
  JS.number_to_string (JS.Num (10 ^ 20)) = "100000000000000000000"
  ∧ JS.number_to_string (JS.Num (10 ^ 21)) = "1e+21"
  ∧ JS.number_to_string (JS.Num (2 ^ 70)) = "1.1805916207174113e+21"
  ∧ JS.number_to_string (JS.Num (2 ^ 1024 - 2 ^ 971))
    = "1.7976931348623157e+308".
Proof. by vm_compute. Qed.

Example Math_max_infinity :
  JS.Math_max (JS.Num 0) JS.PosInfinity = JS.PosInfinity
  ∧ JS.Math_max (JS.Num 0) JS.NegInfinity = JS.Num 0
  ∧ JS.Math_max (JS.Num 0) JS.NaN = JS.NaN.
Proof. done. Qed.

(** ** Settings store *)

Section SettingsStore.
Context (v : Variant).

Lemma assign_source_defaults (blob : option HighlightOnCopySettings) :
  Object_assign empty_object [Some (DEFAULT_SETTINGS v); blob]
  = assign_source (DEFAULT_SETTINGS v) blob.
Proof. reflexivity. Qed.

(** After [loadSettings] the settings own the three properties. *)
Lemma loadSettings_owns_all (st : State) :
  is_Some (backgroundColor (settings (loadSettings v st)))
  ∧ is_Some (foregroundColor (settings (loadSettings v st)))
  ∧ is_Some (duration (settings (loadSettings v st))).
Proof.
  unfold loadSettings, loadData; simpl.
  destruct (data st) as [[[b|] [f|] [d|]]|]; simpl; eauto.
Qed.

(** The loaded duration is the persisted one, or else the default. *)
Lemma loadSettings_duration (st : State) :
  duration (settings (loadSettings v st))
  = match loadData st ≫= duration with
    | Some persisted => Some persisted
    | None => duration (DEFAULT_SETTINGS v)
    end.
Proof.
  unfold loadSettings, loadData. cbn [settings set_settings].
  rewrite assign_source_defaults.
  destruct (data st) as [blob|]; cbn; [|done].
  by destruct (duration blob).
Qed.

(** C4: [loadSettings] merges the persisted blob over the defaults field
    by field.  Each of the three fields of the loaded settings is the
    persisted value when the blob owns the field, and the hardcoded
    default when it does not (a blob may miss any subset of the fields);
    a missing blob and an empty blob both give exactly the defaults. *)
Theorem loadSettings_shallow_merge (st : State) :
  let blob := loadData st in
  let loaded := settings (loadSettings v st) in
  backgroundColor loaded
    = match blob ≫= backgroundColor with
      | Some persisted => Some persisted
      | None => backgroundColor (DEFAULT_SETTINGS v)
      end
  ∧ foregroundColor loaded
    = match blob ≫= foregroundColor with
      | Some persisted => Some persisted
      | None => foregroundColor (DEFAULT_SETTINGS v)
      end
  ∧ duration loaded
    = match blob ≫= duration with
      | Some persisted => Some persisted
      | None => duration (DEFAULT_SETTINGS v)
      end
  ∧ settings (onload v None) = DEFAULT_SETTINGS v
  ∧ settings (onload v (Some empty_object)) = DEFAULT_SETTINGS v.
Proof.
  cbn zeta. unfold loadSettings, loadData.
  cbn [settings set_settings]. rewrite assign_source_defaults.
  destruct (data st) as [blob|]; cbn.
  - destruct (backgroundColor blob), (foregroundColor blob), (duration blob);
      cbn; auto.
  - auto.
Qed.

End SettingsStore.

(** ** Decimal text read back by [parseInt] *)

Section Binary64.

(** The integers from -2^53 to 2^53 are binary64 numbers. *)
Lemma round_to_double_exact (z : Z) :
  - 2 ^ 53 ≤ z ≤ 2 ^ 53 → JS.round_to_double z = JS.Num z.
Proof.
  intros Hz. unfold JS.round_to_double.
  destruct (Z.ltb_spec (Z.abs z) (2 ^ 53)) as [|Ha]; [done|].
  assert (z = 2 ^ 53 ∨ z = - 2 ^ 53) as [-> | ->] by lia; by vm_compute.
Qed.

(** Rounding keeps the sign, and is never [NaN] or [null]. *)
Lemma round_to_double_sign (z : Z) :
  match JS.round_to_double z with
  | JS.Num m => (0 ≤ z → 0 ≤ m) ∧ (z ≤ 0 → m ≤ 0)
  | JS.PosInfinity => 0 < z
  | JS.NegInfinity => z < 0
  | JS.NaN | JS.Null => False
  end.
Proof.
  unfold JS.round_to_double.
  destruct (Z.ltb_spec (Z.abs z) (2 ^ 53)) as [|Ha]; [done|].
  cbn zeta. set (e := Z.log2 (Z.abs z) - 52).
  match goal with
  | |- context [if ?c then ?a + 1 else ?b] =>
      set (q' := if c then a + 1 else b)
  end.
  assert (0 ≤ q' * 2 ^ e) as Hm.
  { assert (0 ≤ 2 ^ e) by (apply Z.pow_nonneg; lia).
    assert (0 ≤ Z.abs z / 2 ^ e) by (apply Z_div_nonneg_nonneg; lia).
    subst q'. case_match; nia. }
  destruct (Z.leb_spec (2 ^ 1024) (q' * 2 ^ e)).
  - destruct (Z.ltb_spec z 0); lia.
  - generalize dependent (q' * 2 ^ e). intros m Hm _.
    destruct (Z.sgn_spec z) as [[? ->]|[[? ->]|[? ->]]]; lia.
Qed.


End Binary64.

Section ParseDecimal.

Lemma code_pretty_N_char (d : N) :
  (d < 10)%N → JS.code (pretty_N_char d) = 48 + Z.of_N d.
Proof.
  intros Hd.
  destruct d as [|p]; [reflexivity|].
  do 4 (destruct p as [p|p|]; try reflexivity; try lia).
Qed.

Lemma digit_value_decimal (a : ascii) :
  48 ≤ JS.code a ≤ 57 → JS.digit_value 10 a = Some (JS.code a - 48).
Proof.
  intros Ha. unfold JS.digit_value.
  rewrite (proj2 (Z.leb_le 48 _)), (proj2 (Z.leb_le _ 57)) by lia.
  cbn [andb]. by rewrite (proj2 (Z.ltb_lt _ 10)) by lia.
Qed.

Lemma digit_value_pretty (d : N) :
  (d < 10)%N → JS.digit_value 10 (pretty_N_char d) = Some (Z.of_N d).
Proof.
  intros Hd. rewrite digit_value_decimal; rewrite code_pretty_N_char by done.
  - f_equal; lia.
  - lia.
Qed.

Lemma div_mod_10 (x : N) :
  Z.of_N x = Z.of_N (x `div` 10) * 10 + Z.of_N (x `mod` 10).
Proof. rewrite (N.div_mod x 10) at 1 by done. lia. Qed.

(** The digits [pretty_N_go] writes start with a digit, and so does what
    follows the first one. *)
Lemma pretty_N_go_head (x : N) (s : string) :
  (0 < x)%N → digit_or_end s →
  ∃ a r, pretty_N_go x s = String a r ∧ 48 ≤ JS.code a ≤ 57 ∧ digit_or_end r.
Proof.
  revert s. induction (N.lt_wf_0 x) as [x _ IH]. intros s Hx Hs.
  rewrite pretty_N_go_step by done.
  assert (Hm : (x `mod` 10 < 10)%N) by by apply N.mod_lt.
  assert (Hc : 48 ≤ JS.code (pretty_N_char (x `mod` 10)) ≤ 57).
  { rewrite code_pretty_N_char by done. revert Hm.
    generalize (x `mod` 10)%N. intros; lia. }
  destruct (decide (x `div` 10 = 0)%N) as [Hz|Hz].
  - rewrite Hz, pretty_N_go_0. by eexists _, _.
  - apply IH; [apply N.div_lt; lia|by apply N.neq_0_lt_0|done].
Qed.

(** Reading the digits of [x] multiplies what was read before by a power
    of ten and adds [x]. *)
Lemma parse_digits_pretty_N_go (x : N) (s : string) :
  (0 < x)%N →
  ∃ k, 0 ≤ k ∧ ∀ acc,
    JS.parse_digits 10 (pretty_N_go x s) acc
    = JS.parse_digits 10 s (Some (default 0 acc * 10 ^ k + Z.of_N x)).
Proof.
  revert s. induction (N.lt_wf_0 x) as [x _ IH]. intros s Hx.
  rewrite pretty_N_go_step by done.
  assert (Hm : (x `mod` 10 < 10)%N) by by apply N.mod_lt.
  pose proof (div_mod_10 x) as Hdm.
  destruct (decide (x `div` 10 = 0)%N) as [Hz|Hz].
  - exists 1. split; [lia|]. intros acc.
    rewrite Hz, pretty_N_go_0. cbn [JS.parse_digits].
    rewrite digit_value_pretty by done.
    do 2 f_equal. rewrite Z.pow_1_r, Hdm, Hz. ring.
  - destruct (IH (x `div` 10)%N) with (s := String (pretty_N_char (x `mod` 10)) s)
      as (k & Hk & IHk); [apply N.div_lt; lia|by apply N.neq_0_lt_0|].
    exists (k + 1). split; [lia|]. intros acc.
    rewrite IHk. cbn [JS.parse_digits].
    rewrite digit_value_pretty by done. cbn [default from_option id].
    do 2 f_equal. rewrite Z.pow_add_r, Z.pow_1_r by lia.
    rewrite Hdm. ring.
Qed.

(** On a string that starts with a decimal digit and goes on with one, or
    ends, [parseInt] reads the digits in radix 10. *)
Lemma parseInt_digit_head (a : ascii) (r : string) :
  48 ≤ JS.code a ≤ 57 → digit_or_end r →
  JS.parseInt (String a r)
  = match JS.parse_digits 10 (String a r) None with
    | Some m => JS.round_to_double m
    | None => JS.NaN
    end.
Proof.
  intros Ha Hr. unfold JS.parseInt. cbn [JS.trim_start].
  assert (JS.is_white_space a = false) as ->.
  { unfold JS.is_white_space.
    rewrite (proj2 (Z.leb_gt _ 13)), (proj2 (Z.eqb_neq _ 32)),
      (proj2 (Z.eqb_neq _ 160)) by lia.
    by rewrite andb_false_r. }
  unfold JS.read_sign.
  rewrite (proj2 (Z.eqb_neq _ 45)), (proj2 (Z.eqb_neq _ 43)) by lia.
  assert (JS.read_radix (String a r) = (10, String a r)) as ->.
  { unfold JS.read_radix. destruct r as [|b r]; [done|]. cbn in Hr.
    rewrite (proj2 (Z.eqb_neq _ 120)), (proj2 (Z.eqb_neq _ 88)) by lia.
    by rewrite andb_false_r. }
  destruct (JS.parse_digits _ _ _) as [m|]; [|done].
  f_equal. lia.
Qed.

(** [parseInt] reads the decimal text of a natural number as the binary64
    number nearest to it. *)
Lemma parseInt_pretty_round (d : N) :
  JS.parseInt (pretty d) = JS.round_to_double (Z.of_N d).
Proof.
  unfold pretty, pretty_N. case_decide as Hd; [by subst|].
  destruct (pretty_N_go_head d "") as (a & r & Heq & Ha & Hr); [lia|done|].
  destruct (parse_digits_pretty_N_go d "") as (k & Hk & Hparse); [lia|].
  rewrite Heq, parseInt_digit_head by done.
  rewrite <-Heq, Hparse. cbn. f_equal; lia.
Qed.

(** [parseInt] reads back the decimal text of a natural number that
    binary64 holds. *)
Lemma parseInt_pretty (d : N) :
  JS.round_to_double (Z.of_N d) = JS.Num (Z.of_N d) →
  JS.parseInt (pretty d) = JS.Num (Z.of_N d).
Proof. intros Hd. by rewrite parseInt_pretty_round. Qed.

End ParseDecimal.

(** ** Settings panel *)

Section SettingsPanel.
Context (v : Variant).

Lemma duration_of_text_eq (text : string) :
  duration_of_text v text
  = Some match JS.parseInt text with
         | JS.Num n => JS.Num (Z.max 0 n)
         | JS.NaN => JS.Num 100
         | JS.PosInfinity => JS.PosInfinity
         | JS.NegInfinity | JS.Null => JS.Num 0
         end.
Proof. unfold duration_of_text. by destruct (JS.parseInt text). Qed.

Lemma onChange_duration_settings (text : string) (st : State) :
  settings (onChange_duration v text st)
  = {| backgroundColor := backgroundColor (settings st);
       foregroundColor := foregroundColor (settings st);
       duration := duration_of_text v text |}.
Proof. reflexivity. Qed.

(** C6, as the code has it: the duration field parses the submitted text
    as an integer and rounds it to binary64.  When the text parses to a
    number [n] the stored duration is [max(0, n)], which is [Infinity]
    when the integer read is too large for binary64; when it does not
    parse, the stored duration is the hardcoded default (100); and the
    decimal text of a non-negative integer [d] is stored as [d] when
    binary64 holds [d], which it does for every [d] up to 2^53. *)
Theorem onChange_duration_stores (text : string) (d : N) (st : State) :
  (∀ n, JS.parseInt text = JS.Num n →
     duration (settings (onChange_duration v text st))
     = Some (JS.Num (Z.max 0 n)))
  ∧ (JS.parseInt text = JS.PosInfinity →
     duration (settings (onChange_duration v text st))
     = Some JS.PosInfinity)
  ∧ (JS.parseInt text = JS.NaN →
     duration (settings (onChange_duration v text st))
     = Some (JS.Num 100))
  ∧ duration (DEFAULT_SETTINGS v) = Some (JS.Num 100)
  ∧ (JS.round_to_double (Z.of_N d) = JS.Num (Z.of_N d) →
     duration (settings (onChange_duration v (pretty d) st))
     = Some (JS.Num (Z.of_N d)))
  ∧ ((d ≤ 2 ^ 53)%N →
     duration (settings (onChange_duration v (pretty d) st))
     = Some (JS.Num (Z.of_N d))).
Proof.
  rewrite !onChange_duration_settings. cbn [duration].
  rewrite !duration_of_text_eq.
  assert (JS.round_to_double (Z.of_N d) = JS.Num (Z.of_N d) →
          Some match JS.parseInt (pretty d) with
               | JS.Num n => JS.Num (Z.max 0 n)
               | JS.NaN => JS.Num 100
               | JS.PosInfinity => JS.PosInfinity
               | JS.NegInfinity | JS.Null => JS.Num 0
               end = Some (JS.Num (Z.of_N d))) as Hd.
  { intros Hd. rewrite parseInt_pretty by done. do 2 f_equal. lia. }
  split_and!; [by intros n ->|by intros ->|by intros ->|done|done|].
  intros Hle. apply Hd, round_to_double_exact.
  assert (Z.of_N d ≤ Z.of_N (2 ^ 53)) by lia.
  change (Z.of_N (2 ^ 53)) with (2 ^ 53) in *. lia.
Qed.

(** C7, as the code has it: a text that does not parse as an integer
    makes the stored duration the hardcoded default (100), and a text
    that parses to a negative integer makes it 0, whatever the duration
    was before. *)
Theorem onChange_duration_rejected_text (text : string) (st : State) :
  (JS.parseInt text = JS.NaN →
   duration (settings (onChange_duration v text st)) = Some (JS.Num 100))
  ∧ (∀ n, JS.parseInt text = JS.Num n → n < 0 →
     duration (settings (onChange_duration v text st)) = Some (JS.Num 0)).
Proof.
  rewrite onChange_duration_settings. cbn [duration].
  rewrite duration_of_text_eq. split.
  - by intros ->.
  - intros n -> Hn. do 2 f_equal. lia.
Qed.

(** C8, as the code has it: the foreground field stores every submitted
    string as it is, the empty string too, in both variants; so does the
    background field of variant B; the background field of variant A
    stores every string but the empty one as it is, and stores the default
    background for the empty string. *)
Theorem onChange_color_stores (text : string) (st : State) :
  foregroundColor (settings (onChange_foregroundColor text st)) = Some text
  ∧ backgroundColor (settings (onChange_backgroundColor VariantB text st))
    = Some text
  ∧ backgroundColor (settings (onChange_backgroundColor VariantA text st))
    = Some (if decide (text = "") then "rgba(0, 255, 0, 0.5)" else text).
Proof.
  split_and!; [done..|]. cbn. unfold js_or. by destruct text.
Qed.

End SettingsPanel.

(** C7 fails as stated: with a stored duration of 250, submitting [abc]
    (no integer) stores 100 and submitting [-5] (negative) stores 0;
    neither leaves 250 in place. *)
Lemma onChange_duration_overwrites_prior :
  let st := onChange_duration VariantA "250" (onload VariantA None) in
  duration (settings st) = Some (JS.Num 250)
  ∧ duration (settings (onChange_duration VariantA "abc" st))
    = Some (JS.Num 100)
  ∧ duration (settings (onChange_duration VariantA "-5" st))
    = Some (JS.Num 0)
  ∧ duration (settings (onChange_duration VariantA "abc" st))
    ≠ duration (settings st)
  ∧ duration (settings (onChange_duration VariantA "-5" st))
    ≠ duration (settings st).
Proof. by split_and!. Qed.

Lemma onChange_duration_rejected_text_witness :
  JS.parseInt "abc" = JS.NaN
  ∧ JS.parseInt "-5" = JS.Num (-5)
  ∧ duration (settings (onChange_duration VariantA "abc"
                          (onChange_duration VariantA "250"
                             (onload VariantA None))))
    = Some (JS.Num 100)
  ∧ duration (settings (onChange_duration VariantA "-5"
                          (onChange_duration VariantA "250"
                             (onload VariantA None))))
    = Some (JS.Num 0).
Proof.
  split_and!; [reflexivity..| |].
  - apply (onChange_duration_rejected_text VariantA "abc"). reflexivity.
  - apply (onChange_duration_rejected_text VariantA "-5" _) with (n := -5);
      [reflexivity|lia].
Defined.

(** C6 fails as stated: 2^53 + 1 is a non-negative integer, and its
    decimal text is stored as 2^53, the binary64 number nearest to it. *)
Lemma onChange_duration_rounds :
  let d := 9007199254740993%N in
  let st := onChange_duration VariantA (pretty d) (onload VariantA None) in
  pretty d = "9007199254740993"
  ∧ duration (settings st) = Some (JS.Num 9007199254740992)
  ∧ duration (settings st) ≠ Some (JS.Num (Z.of_N d)).
Proof. split_and!; [by vm_compute..|]. vm_compute. by intros [=]. Qed.

Lemma onChange_duration_stores_witness :
  let st := onload VariantA None in
  JS.parseInt "250" = JS.Num 250
  ∧ duration (settings (onChange_duration VariantA "250" st))
    = Some (JS.Num (Z.max 0 250))
  ∧ duration (settings (onChange_duration VariantA (pretty (10 ^ 400)%N) st))
    = Some JS.PosInfinity
  ∧ duration (settings (onChange_duration VariantA "abc" st))
    = Some (JS.Num 100)
  ∧ duration (settings (onChange_duration VariantA (pretty (2 ^ 60)%N) st))
    = Some (JS.Num (Z.of_N (2 ^ 60)))
  ∧ duration (settings (onChange_duration VariantA (pretty (2 ^ 53)%N) st))
    = Some (JS.Num (Z.of_N (2 ^ 53))).
Proof.
  intros st.
  destruct (onChange_duration_stores VariantA "250" (2 ^ 60) st)
    as (Hnum & _ & _ & _ & Hrep & _).
  destruct (onChange_duration_stores VariantA (pretty (10 ^ 400)%N)
              (2 ^ 53) st) as (_ & Hinf & _ & _ & _ & Hle).
  destruct (onChange_duration_stores VariantA "abc" 0 st)
    as (_ & _ & Hnan & _).
  split_and!.
  - reflexivity.
  - exact (Hnum 250 eq_refl).
  - apply Hinf. by vm_compute.
  - exact (Hnan eq_refl).
  - apply Hrep. by vm_compute.
  - apply Hle. lia.
Defined.

(** C8 fails as stated: in variant A the background field does not store
    the empty string; it stores the default background. *)
Lemma onChange_backgroundColor_empty_A :
  backgroundColor
    (settings (onChange_backgroundColor VariantA "" (onload VariantA None)))
  = Some "rgba(0, 255, 0, 0.5)"
  ∧ backgroundColor
      (settings (onChange_backgroundColor VariantA "" (onload VariantA None)))
    ≠ Some "".
Proof. by split. Qed.

(** ** What each operation leaves alone *)

Ltac unfold_host :=
  unfold setProperty, removeProperty, classList_add, classList_remove,
    setTimeout, clearTimeout, markText, marker_clear, saveSettings, saveData,
    record_effect, set_settings, set_highlightTimeout, set_data, set_style,
    set_classList, set_markers, set_timers, set_now in *.

Ltac frame :=
  intros; unfold_host; repeat case_match; simplify_eq/=; try done.

Section Frame.
Context (v : Variant).

Lemma setProperty_only_style (name value : string) (st : State) :
  ∃ s, setProperty name value st = set_style s st.
Proof. unfold setProperty, removeProperty. case_decide; eauto. Qed.

(** [applyStyles] changes the root style and nothing else. *)
Lemma applyStyles_only_style (st : State) :
  ∃ s, applyStyles v st = set_style s st.
Proof.
  destruct v; unfold applyStyles; cbn zeta.
  - destruct (setProperty_only_style "--hbg"
                (to_string (backgroundColor (settings st))) st) as [s1 ->].
    destruct (setProperty_only_style "--hfg"
                (to_string (js_or (foregroundColor (settings (set_style s1 st)))
                              (Some "inherit"))) (set_style s1 st))
      as [s2 ->].
    destruct (setProperty_only_style "--hdur"
                (template_ms (duration (settings (set_style s2 (set_style s1 st)))))
                (set_style s2 (set_style s1 st))) as [s3 ->].
    by exists s3.
  - assert (∃ s1, (if truthy (backgroundColor (settings st))
                   then setProperty "--highlight-on-copy-bg"
                          (to_string (backgroundColor (settings st))) st
                   else removeProperty "--highlight-on-copy-bg" st)
                  = set_style s1 st) as [s1 ->].
    { destruct (truthy _); [apply setProperty_only_style|].
      unfold removeProperty. eauto. }
    assert (∃ s2, (if truthy (foregroundColor (settings (set_style s1 st)))
                   then setProperty "--highlight-on-copy-fg"
                          (to_string (foregroundColor
                                        (settings (set_style s1 st))))
                          (set_style s1 st)
                   else removeProperty "--highlight-on-copy-fg"
                          (set_style s1 st))
                  = set_style s2 st) as [s2 ->].
    { destruct (truthy _).
      - destruct (setProperty_only_style "--highlight-on-copy-fg"
                    (to_string (foregroundColor (settings (set_style s1 st))))
                    (set_style s1 st)) as [s2 ->].
        by exists s2.
      - unfold removeProperty. eauto. }
    destruct (setProperty_only_style "--highlight-on-copy-duration"
                (template_ms (duration (settings (set_style s2 st))))
                (set_style s2 st)) as [s3 ->].
    by exists s3.
Qed.

Lemma applyStyles_frame (st : State) :
  settings (applyStyles v st) = settings st
  ∧ highlightTimeout (applyStyles v st) = highlightTimeout st
  ∧ classList (applyStyles v st) = classList st
  ∧ markers (applyStyles v st) = markers st
  ∧ next_marker (applyStyles v st) = next_marker st
  ∧ timers (applyStyles v st) = timers st
  ∧ next_timer (applyStyles v st) = next_timer st
  ∧ now (applyStyles v st) = now st
  ∧ trace (applyStyles v st) = trace st.
Proof. destruct (applyStyles_only_style st) as [s ->]. by split_and!. Qed.

Lemma handleCM5Highlight_frame (e : Editor) (st : State) :
  settings (handleCM5Highlight e st) = settings st
  ∧ highlightTimeout (handleCM5Highlight e st) = highlightTimeout st
  ∧ style (handleCM5Highlight e st) = style st
  ∧ classList (handleCM5Highlight e st) = classList st
  ∧ now (handleCM5Highlight e st) = now st.
Proof. unfold handleCM5Highlight. frame. Qed.

Lemma onCopy_settings (view : option View) (st : State) :
  settings (onCopy v view st) = settings st.
Proof.
  destruct view as [view|]; [|done]. unfold onCopy.
  destruct (applyStyles_frame st) as (Hs & _).
  repeat case_match; rewrite ?(proj1 (handleCM5Highlight_frame _ _));
    frame.
Qed.

Lemma onCopy_now (view : option View) (st : State) :
  now (onCopy v view st) = now st.
Proof.
  destruct view as [view|]; [|done]. unfold onCopy.
  destruct (applyStyles_frame st) as (_ & _ & _ & _ & _ & _ & _ & Hn & _).
  repeat case_match;
    rewrite ?(proj2 (proj2 (proj2 (proj2 (handleCM5Highlight_frame _ _)))));
    frame.
Qed.

Lemma fire_settings (st : State) (tm : Timer) :
  settings (fire st tm) = settings st.
Proof. unfold fire, run_callback. frame. Qed.

Lemma foldl_fire_settings (l : list Timer) (st : State) :
  settings (foldl fire st l) = settings st.
Proof.
  revert st. induction l as [|tm l IH]; intros st; [done|].
  cbn [foldl]. by rewrite IH, fire_settings.
Qed.

Lemma advance_settings (t : Z) (st : State) :
  settings (advance t st) = settings st.
Proof. unfold advance. cbn. by rewrite foldl_fire_settings. Qed.

Lemma advance_now (t : Z) (st : State) : now (advance t st) = t.
Proof. reflexivity. Qed.

(** A step changes the duration only through the duration field of the
    panel. *)
Lemma step_duration (st : State) (e : Event) :
  duration (settings (step v st e))
  = match e with
    | ChangeDuration text => duration_of_text v text
    | _ => duration (settings st)
    end.
Proof.
  destruct e; cbn [step].
  - by rewrite onCopy_settings.
  - by rewrite advance_settings.
  - done.
  - done.
  - done.
Qed.

End Frame.

(** ** The invariant on the duration *)

Section DurationInvariant.
Context (v : Variant).

Lemma duration_of_text_nonneg (text : string) :
  ∃ n, duration_of_text v text = Some n ∧ number_nonneg n = true.
Proof.
  rewrite duration_of_text_eq.
  destruct (JS.parseInt text) as [|n| | |]; eexists; split; try done.
  apply Z.leb_le. lia.
Qed.

Lemma step_duration_nonneg (st : State) (e : Event) :
  duration_nonneg (settings st) = true →
  duration_nonneg (settings (step v st e)) = true.
Proof.
  unfold duration_nonneg. rewrite step_duration.
  destruct e as [| | | |text]; try done.
  intros _. by destruct (duration_of_text_nonneg text) as (d & -> & Hd).
Qed.

Lemma run_duration_nonneg (st : State) (events : list Event) :
  duration_nonneg (settings st) = true →
  duration_nonneg (settings (run v st events)) = true.
Proof.
  revert st. induction events as [|e events IH]; intros st Hst; [done|].
  apply IH. by apply step_duration_nonneg.
Qed.

(** C5, as the code has it: [settings.duration >= 0] holds from a duration
    edit in the settings panel on, whatever happens afterwards; it holds
    at all times after a load whose blob has no duration field or a
    non-negative one.  The load itself does not check the value: a
    persisted duration is taken over as it is. *)
Theorem duration_nonneg_invariant (st : State)
    (blob : option HighlightOnCopySettings) (text : string)
    (events : list Event) :
  duration_nonneg (settings (run v (onChange_duration v text st) events))
  = true
  ∧ (match blob ≫= duration with
     | Some n => number_nonneg n = true
     | None => True
     end →
     duration_nonneg (settings (run v (onload v blob) events)) = true)
  ∧ (∀ n, loadData st ≫= duration = Some n →
     duration (settings (loadSettings v st)) = Some n).
Proof.
  split_and!.
  - apply run_duration_nonneg. unfold duration_nonneg.
    rewrite onChange_duration_settings. cbn [duration].
    by destruct (duration_of_text_nonneg text) as (d & -> & Hd).
  - intros Hblob. apply run_duration_nonneg. unfold duration_nonneg, onload.
    rewrite (loadSettings_duration v (initial blob)).
    cbn [loadData initial data].
    by destruct (blob ≫= duration).
  - intros n Hn. by rewrite loadSettings_duration, Hn.
Qed.

End DurationInvariant.

(** C5 fails as stated: a blob whose duration is -5 is loaded as it is, so
    [settings.duration >= 0] is false after the load, and stays false while
    the page is copied from. *)
Lemma loadSettings_keeps_negative_duration :
  let blob := Some {| backgroundColor := None; foregroundColor := None;
                      duration := Some (JS.Num (-5)) |} in
  duration (settings (onload VariantA blob)) = Some (JS.Num (-5))
  ∧ duration_nonneg (settings (onload VariantA blob)) = false
  ∧ duration_nonneg
      (settings (run VariantA (onload VariantA blob)
                   [Copy None; Elapse 10])) = false.
Proof. by split_and!. Qed.

Lemma duration_nonneg_invariant_witness :
  let blob := Some {| backgroundColor := Some "red"; foregroundColor := None;
                      duration := Some (JS.Num 250) |} in
  number_nonneg (JS.Num 250) = true
  ∧ duration_nonneg
      (settings (run VariantA (onload VariantA blob)
                   [ChangeForeground "blue"; Elapse 10])) = true
  ∧ duration (settings (loadSettings VariantA (initial blob)))
    = Some (JS.Num 250).
Proof.
  intros blob.
  pose proof (duration_nonneg_invariant VariantA (initial blob) blob "7"
                [ChangeForeground "blue"; Elapse 10]) as (_ & Hrun & Hload).
  split_and!.
  - reflexivity.
  - apply Hrun. reflexivity.
  - apply Hload. reflexivity.
Defined.

(** ** The legacy range highlighter *)

Section LegacyHighlighter.

(** From 0 up to 2^31 - 1 the delay of a timer is the number given. *)
Lemma timer_delay_in_range (d : Z) :
  0 ≤ d < 2 ^ 31 → timer_delay (Some (JS.Num d)) = d.
Proof.
  intros Hd. unfold timer_delay, to_long.
  rewrite Z.mod_small by lia.
  destruct (Z.leb_spec (2 ^ 31) d); lia.
Qed.

Lemma timer_delay_nonneg (d : option JS.number) : 0 ≤ timer_delay d.
Proof. unfold timer_delay. repeat case_match; lia. Qed.

Lemma normalize_before (a b : Pos) :
  before a b →
  normalize {| anchor := a; head := b |} = (a, b)
  ∧ normalize {| anchor := b; head := a |} = (a, b).
Proof.
  unfold before, normalize. cbn. intros Hab.
  destruct (Z.ltb_spec (line b) (line a)), (Z.ltb_spec (line a) (line b)),
    (Z.eqb_spec (line b) (line a)), (Z.eqb_spec (line a) (line b)),
    (Z.ltb_spec (ch b) (ch a)), (Z.ltb_spec (ch a) (ch b));
    cbn; try done; lia.
Qed.

(** What [handleCM5Highlight] does once past its guard. *)
Lemma handleCM5Highlight_marks (e : Editor) (c : CodeMirror5) (sel : Range)
    (rest : list Range) (st : State) :
  cm e = Some c → has_markText c = true →
  listSelections c = Some (sel :: rest) →
  handleCM5Highlight e st
  = let m := new_marker st (cm_id c) (normalize sel).1 (normalize sel).2 in
    set_timers (insert_timer (new_marker_timer st) (timers st))
      (S (next_timer st))
      (record_effect (MarkerCreated m)
         (set_markers (markers st ++ [m]) (S (next_marker st)) st)).
Proof.
  intros Hcm Hmark Hsels. unfold handleCM5Highlight.
  rewrite Hcm, Hmark, Hsels. cbn [negb].
  by destruct (normalize sel) as [from to].
Qed.

Lemma handleCM5Highlight_legacy_editor (id : nat) (sel : Range)
    (rest : list Range) (st : State) :
  handleCM5Highlight (legacy_editor id (sel :: rest)) st
  = let m := new_marker st id (normalize sel).1 (normalize sel).2 in
    set_timers (insert_timer (new_marker_timer st) (timers st))
      (S (next_timer st))
      (record_effect (MarkerCreated m)
         (set_markers (markers st ++ [m]) (S (next_marker st)) st)).
Proof.
  exact (handleCM5Highlight_marks (legacy_editor id (sel :: rest))
           {| cm_id := id; has_markText := true;
              listSelections := Some (sel :: rest) |}
           sel rest st eq_refl eq_refl eq_refl).
Qed.

(** C3: the legacy highlighter does not depend on the direction of the
    selection.  For positions [a] before [b] in document order (by line,
    then by column), the selections (anchor [a], head [b]) and (anchor
    [b], head [a]) both normalize to (from [a], to [b]); the highlighter
    ends in the same state for both, and the marker it made runs from [a]
    to [b]. *)
Theorem handleCM5Highlight_direction_symmetric (a b : Pos) (id : nat)
    (rest : list Range) (st : State) :
  before a b →
  let forward := {| anchor := a; head := b |} in
  let backward := {| anchor := b; head := a |} in
  normalize forward = (a, b)
  ∧ normalize backward = (a, b)
  ∧ handleCM5Highlight (legacy_editor id (forward :: rest)) st
    = handleCM5Highlight (legacy_editor id (backward :: rest)) st
  ∧ markers (handleCM5Highlight (legacy_editor id (backward :: rest)) st)
    = markers st ++ [new_marker st id a b].
Proof.
  intros Hab forward backward.
  destruct (normalize_before a b Hab) as [Hf Hb].
  split_and!; [done..| |].
  - rewrite !handleCM5Highlight_legacy_editor. unfold forward, backward.
    by rewrite Hf, Hb.
  - rewrite handleCM5Highlight_legacy_editor. unfold backward.
    by rewrite Hb.
Qed.

Lemma handleCM5Highlight_guarded (e : Editor) (st : State) :
  legacy_guard e = true → handleCM5Highlight e st = st.
Proof.
  unfold legacy_guard, handleCM5Highlight.
  destruct (cm e) as [c|]; [|done].
  destruct (has_markText c); [|done]. cbn.
  by destruct (listSelections c) as [[|sel rest]|].
Qed.



End LegacyHighlighter.

Lemma handleCM5Highlight_direction_symmetric_witness :
  let a := {| line := 1; ch := 3 |} in
  let b := {| line := 2; ch := 5 |} in
  before a b
  ∧ normalize {| anchor := b; head := a |} = (a, b)
  ∧ markers (handleCM5Highlight
               (legacy_editor 0 [{| anchor := b; head := a |}])
               (onload VariantA None))
    = [new_marker (onload VariantA None) 0 a b].
Proof.
  intros a b.
  assert (Hab : before a b) by (left; cbn; lia).
  destruct (handleCM5Highlight_direction_symmetric a b 0 []
              (onload VariantA None) Hab) as (_ & Hnorm & _ & Hmarkers).
  split_and!; [exact Hab|exact Hnorm|exact Hmarkers].
Defined.


(** ** The live style parameters *)

Section StyleParameters.

Lemma onCopy_style (v : Variant) (view : View) (st : State) :
  style (onCopy v (Some view) st) = style (applyStyles v st).
Proof.
  unfold onCopy.
  repeat case_match;
    rewrite ?(proj1 (proj2 (proj2 (handleCM5Highlight_frame _ _))));
    frame.
Qed.

Lemma template_ms_nonempty (d : option JS.number) : template_ms d ≠ "".
Proof.
  unfold template_ms.
  destruct (match d with Some n => JS.number_to_string n | None => _ end);
    done.
Qed.

Lemma lookup_removeProperty (name key : string) (st : State) :
  style (removeProperty name st) !! key
  = if decide (key = name) then None else style st !! key.
Proof.
  unfold removeProperty. cbn [style set_style]. case_decide as Hk.
  - subst. apply lookup_delete_eq.
  - by apply lookup_delete_ne.
Qed.

Lemma lookup_setProperty (name value key : string) (st : State) :
  style (setProperty name value st) !! key
  = if decide (key = name)
    then (if decide (value = "") then None else Some value)
    else style st !! key.
Proof.
  unfold setProperty. destruct (decide (value = "")) as [Hv|Hv].
  - apply lookup_removeProperty.
  - cbn [style set_style]. case_decide as Hk.
    + subst. apply lookup_insert_eq.
    + by apply lookup_insert_ne.
Qed.

Lemma settings_setProperty (name value : string) (st : State) :
  settings (setProperty name value st) = settings st.
Proof. unfold setProperty. by case_decide. Qed.

Lemma settings_removeProperty (name : string) (st : State) :
  settings (removeProperty name st) = settings st.
Proof. reflexivity. Qed.

Lemma truthy_Some (s : string) :
  truthy (Some s) = if decide (s = "") then false else true.
Proof. by destruct s. Qed.

Ltac style_lookup :=
  repeat first
    [ rewrite lookup_setProperty
    | rewrite lookup_removeProperty
    | rewrite settings_setProperty
    | rewrite settings_removeProperty
    | progress cbn [to_string default from_option id] in *
    | case_decide; try discriminate ].

(** C9, as the code has it: a copy event with a view sets the style
    parameters from the settings.  The background property is the
    configured background, and is removed when that is empty.  The
    foreground property is the configured foreground; when that is empty,
    variant A sets the property to [inherit] and variant B removes it.  The
    duration property is the configured duration followed by [ms]
    ([200ms] for 200). *)
Theorem onCopy_style_parameters (v : Variant) (view : View) (st : State)
    (bg fg : string) (d : JS.number) :
  backgroundColor (settings st) = Some bg →
  foregroundColor (settings st) = Some fg →
  duration (settings st) = Some d →
  let style' := style (onCopy v (Some view) st) in
  style' !! prop_bg v = (if decide (bg = "") then None else Some bg)
  ∧ style' !! prop_fg v
    = (if decide (fg = "")
       then match v with VariantA => Some "inherit" | VariantB => None end
       else Some fg)
  ∧ style' !! prop_dur v = Some (JS.number_to_string d +:+ "ms")
  ∧ JS.number_to_string (JS.Num 200) +:+ "ms" = "200ms".
Proof.
  intros Hbg Hfg Hd style'. unfold style'. rewrite onCopy_style.
  pose proof (template_ms_nonempty (Some d)) as Hms.
  assert (Hd' : template_ms (Some d) = JS.number_to_string d +:+ "ms")
    by done.
  destruct v; unfold applyStyles; cbn [prop_bg prop_fg prop_dur]; cbn zeta.
  - split_and!; [..|done]; style_lookup;
      rewrite ?Hbg, ?Hfg, ?Hd in *; unfold js_or in *;
      rewrite ?truthy_Some in *; style_lookup; congruence.
  - rewrite Hbg, truthy_Some.
    destruct (decide (bg = "")) as [->|Hne];
      rewrite ?settings_setProperty, ?settings_removeProperty, Hfg, truthy_Some;
      destruct (decide (fg = "")) as [->|Hne'];
      (split_and!; [..|done]); style_lookup; rewrite ?Hd in *; congruence.
Qed.

End StyleParameters.

(** C9 fails as stated: in variant B, with an empty configured foreground,
    the copy handler leaves no foreground property on the root; it does
    not set it to [inherit]. *)
Lemma onCopy_foreground_removed_B :
  let st := onload VariantB
              (Some {| backgroundColor := Some "red";
                       foregroundColor := Some "";
                       duration := Some (JS.Num 200) |}) in
  style (onCopy VariantB (Some modern_view) st) !! prop_fg VariantB = None
  ∧ style (onCopy VariantB (Some modern_view) st) !! prop_fg VariantB
    ≠ Some "inherit".
Proof. by split; vm_compute. Qed.

Lemma onCopy_style_parameters_witness :
  let st := onload VariantA
              (Some {| backgroundColor := Some "red";
                       foregroundColor := Some "";
                       duration := Some (JS.Num 200) |}) in
  style (onCopy VariantA (Some modern_view) st) !! "--hbg" = Some "red"
  ∧ style (onCopy VariantA (Some modern_view) st) !! "--hfg"
    = Some "inherit"
  ∧ style (onCopy VariantA (Some modern_view) st) !! "--hdur"
    = Some "200ms".
Proof.
  intros st.
  pose proof (onCopy_style_parameters VariantA modern_view st "red" ""
                (JS.Num 200) eq_refl eq_refl eq_refl) as (Hbg & Hfg & Hd & _).
  split_and!; [exact Hbg|exact Hfg|exact Hd].
Defined.

(** ** Timers and the event loop *)

Section Timers.

Lemma insert_timer_Permutation (tm : Timer) (l : list Timer) :
  insert_timer tm l ≡ₚ tm :: l.
Proof.
  induction l as [|x r IH]; [done|]. cbn [insert_timer].
  case_match; [|done]. rewrite IH. apply Permutation_swap.
Qed.

Lemma elem_of_insert_timer (tm x : Timer) (l : list Timer) :
  x ∈ insert_timer tm l ↔ x = tm ∨ x ∈ l.
Proof. by rewrite insert_timer_Permutation, elem_of_cons. Qed.

Lemma filter_insert_timer_False (P : Timer → Prop) `{!∀ x, Decision (P x)}
    (tm : Timer) (l : list Timer) :
  ¬ P tm → filter P (insert_timer tm l) = filter P l.
Proof.
  intros Hn. induction l as [|x r IH]; cbn [insert_timer].
  - by rewrite filter_cons_False.
  - case_match.
    + by rewrite !filter_cons, IH.
    + by rewrite filter_cons_False.
Qed.

Lemma filter_insert_timer_nil (P : Timer → Prop) `{!∀ x, Decision (P x)}
    (tm : Timer) (l : list Timer) :
  P tm → filter P l = [] → filter P (insert_timer tm l) = [tm].
Proof.
  intros Hp Hnil. apply Permutation_singleton_r.
  by rewrite insert_timer_Permutation, filter_cons_True, Hnil.
Qed.

Lemma filter_comm {A : Type} (P Q : A → Prop) `{!∀ x, Decision (P x)}
    `{!∀ x, Decision (Q x)} (l : list A) :
  filter P (filter Q l) = filter Q (filter P l).
Proof.
  rewrite !list_filter_filter. apply list_filter_iff. naive_solver.
Qed.

Lemma filter_none {A : Type} (P : A → Prop) `{!∀ x, Decision (P x)}
    (l : list A) :
  (∀ x, x ∈ l → ¬ P x) → filter P l = [].
Proof.
  induction l as [|a l IH]; intros Hl; [done|].
  rewrite filter_cons_False by (apply Hl; left).
  apply IH. intros x Hx. apply Hl. by right.
Qed.

(** *** Running a batch of timers *)

Lemma foldl_fire_frame (l : list Timer) (st : State) :
  settings (foldl fire st l) = settings st
  ∧ data (foldl fire st l) = data st
  ∧ style (foldl fire st l) = style st
  ∧ timers (foldl fire st l) = timers st
  ∧ next_timer (foldl fire st l) = next_timer st
  ∧ next_marker (foldl fire st l) = next_marker st.
Proof.
  revert st. induction l as [|tm l IH]; intros st; [done|].
  cbn [foldl]. destruct (IH (fire st tm)) as (-> & -> & -> & -> & -> & ->).
  unfold fire, run_callback. by destruct (timer_callback tm).
Qed.

Lemma foldl_fire_trace (l : list Timer) (st : State) :
  trace (foldl fire st l)
  = trace st
    ++ ((λ tm, (timer_due tm, callback_effect (timer_callback tm))) <$> l).
Proof.
  revert st. induction l as [|tm l IH]; intros st; cbn [foldl fmap list_fmap].
  - by rewrite app_nil_r.
  - rewrite IH. unfold fire, run_callback.
    destruct (timer_callback tm); cbn; by rewrite <-app_assoc.
Qed.

Lemma foldl_fire_no_revert (l : list Timer) (st : State) :
  filter (λ tm, timer_callback tm = RevertHighlight) l = [] →
  highlightTimeout (foldl fire st l) = highlightTimeout st
  ∧ classList (foldl fire st l) = classList st.
Proof.
  revert st. induction l as [|tm l IH]; intros st Hl; [done|].
  rewrite filter_cons in Hl. case_decide as Hcb; [done|].
  cbn [foldl]. destruct (IH (fire st tm) Hl) as [-> ->].
  unfold fire, run_callback. by destruct (timer_callback tm).
Qed.

Lemma foldl_fire_revert (l : list Timer) (st : State) :
  filter (λ tm, timer_callback tm = RevertHighlight) l ≠ [] →
  highlightTimeout (foldl fire st l) = None
  ∧ classList (foldl fire st l) = classList st ∖ {[ACTIVE]}.
Proof.
  revert st. induction l as [|tm l IH]; intros st Hl; [done|].
  cbn [foldl].
  destruct (decide (filter (λ tm, timer_callback tm = RevertHighlight) l = []))
    as [Hnil|Hne].
  - destruct (foldl_fire_no_revert l (fire st tm) Hnil) as [-> ->].
    rewrite filter_cons, Hnil in Hl. case_decide as Hcb; [|done].
    unfold fire. by rewrite Hcb.
  - destruct (IH (fire st tm) Hne) as [-> ->]. split; [done|].
    unfold fire, run_callback. destruct (timer_callback tm); cbn; [|done].
    set_solver.
Qed.

Lemma foldl_fire_markers (l : list Timer) (st : State) (x : TextMarker) :
  x ∈ markers (foldl fire st l)
  ↔ x ∈ markers st ∧ ClearMarker (marker_id x) ∉ timer_callback <$> l.
Proof.
  revert st. induction l as [|tm l IH]; intros st; cbn [foldl fmap list_fmap].
  - rewrite elem_of_nil. naive_solver.
  - rewrite IH, not_elem_of_cons. unfold fire, run_callback.
    destruct (timer_callback tm) as [|k]; cbn.
    + naive_solver.
    + rewrite list_elem_of_filter. naive_solver.
Qed.

End Timers.

(** ** The copy handler as a state machine *)

Section CopyHandler.
Context (v : Variant).

Lemma highlight_started_fields (st : State) :
  let st' := highlight_started v st in
  settings st' = settings st
  ∧ highlightTimeout st' = Some (next_timer st)
  ∧ classList st' = {[ACTIVE]} ∪ classList st
  ∧ markers st' = markers st
  ∧ next_marker st' = next_marker st
  ∧ timers st' = insert_timer (new_revert_timer st) (uncancelled st)
  ∧ next_timer st' = S (next_timer st)
  ∧ now st' = now st
  ∧ trace st' = trace st ++ [(now st, ClassAdded ACTIVE)].
Proof.
  unfold highlight_started, uncancelled.
  destruct (applyStyles_only_style v st) as [s ->]. cbn zeta.
  cbn [highlightTimeout set_style].
  destruct (highlightTimeout st); split_and!; reflexivity.
Qed.

Lemma onCopy_cases (view : View) (st : State) :
  onCopy v (Some view) st
  = if legacy_applies view
    then handleCM5Highlight (editor view) (highlight_started v st)
    else highlight_started v st.
Proof.
  unfold onCopy, legacy_applies, highlight_started.
  destruct (setTimeout _ _ _) as [id st2].
  destruct (bool_decide (getMode view = "source")); [|done].
  destruct (isCM6 (editor view)); [done|]. cbn [negb andb].
  destruct (legacy_guard (editor view)) eqn:Hg; [|done].
  by apply handleCM5Highlight_guarded.
Qed.

Lemma legacy_unguarded (e : Editor) :
  legacy_guard e = false →
  ∃ c sel rest, cm e = Some c ∧ has_markText c = true
                ∧ listSelections c = Some (sel :: rest).
Proof.
  unfold legacy_guard. destruct (cm e) as [c|]; [|done].
  destruct (has_markText c) eqn:Hmark; [|done].
  destruct (listSelections c) as [[|sel rest]|] eqn:Hsels; try done.
  intros _. by exists c, sel, rest.
Qed.

Lemma handleCM5Highlight_fields (e : Editor) (st : State) :
  legacy_guard e = false →
  let st' := handleCM5Highlight e st in
  ∃ mk, marker_id mk = next_marker st
  ∧ settings st' = settings st
  ∧ highlightTimeout st' = highlightTimeout st
  ∧ classList st' = classList st
  ∧ markers st' = markers st ++ [mk]
  ∧ next_marker st' = S (next_marker st)
  ∧ timers st' = insert_timer (new_marker_timer st) (timers st)
  ∧ next_timer st' = S (next_timer st)
  ∧ now st' = now st
  ∧ trace st' = trace st ++ [(now st, MarkerCreated mk)].
Proof.
  intros (c & sel & rest & Hcm & Hmark & Hsels)%legacy_unguarded.
  cbn zeta. rewrite (handleCM5Highlight_marks e c sel rest st Hcm Hmark Hsels).
  exists (new_marker st (cm_id c) (normalize sel).1 (normalize sel).2).
  split_and!; reflexivity.
Qed.

(** *** The invariant *)

Lemma wf_initial (blob : option HighlightOnCopySettings) :
  wf (onload v blob).
Proof.
  split; cbn.
  - by intros tm ?%elem_of_nil.
  - done.
  - by intros tm ?%elem_of_nil.
  - lia.
  - by intros tm m ?%elem_of_nil.
  - by intros t m ?%elem_of_nil.
Qed.

Lemma revert_timers_uncancelled (st : State) :
  wf st →
  filter (λ tm, timer_callback tm = RevertHighlight) (uncancelled st) = [].
Proof.
  intros Hwf. unfold uncancelled.
  destruct (highlightTimeout st) as [id|] eqn:Hh.
  - rewrite list_filter_filter. apply filter_none.
    intros tm Htm [Hcb Hid]. apply (wf_revert st Hwf tm Htm) in Hcb.
    congruence.
  - apply filter_none. intros tm Htm Hcb.
    apply (wf_revert st Hwf tm Htm) in Hcb. congruence.
Qed.

Lemma elem_of_uncancelled (st : State) (tm : Timer) :
  tm ∈ uncancelled st → tm ∈ timers st.
Proof.
  unfold uncancelled. destruct (highlightTimeout st); [|done].
  rewrite list_elem_of_filter. naive_solver.
Qed.

Lemma revert_timers_highlight_started (st : State) :
  wf st → revert_timers (highlight_started v st) = [new_revert_timer st].
Proof.
  intros Hwf. unfold revert_timers.
  destruct (highlight_started_fields st) as (_&_&_&_&_& -> &_).
  apply filter_insert_timer_nil; [done|by apply revert_timers_uncancelled].
Qed.

Lemma wf_highlight_started (st : State) :
  wf st → wf (highlight_started v st).
Proof.
  intros Hwf. pose proof (revert_timers_highlight_started st Hwf) as Hrev.
  pose proof (revert_timers_uncancelled st Hwf) as Hnone.
  destruct (highlight_started_fields st)
    as (Hs & Hh & Hc & Hm & Hnm & Ht & Hnt & Hn & Htr).
  split.
  - intros tm. rewrite Ht, Hnt, elem_of_insert_timer.
    intros [->|Htm%elem_of_uncancelled]; cbn; [lia|].
    apply (wf_ids st Hwf) in Htm. lia.
  - intros i. rewrite Hh, Hnt. intros [= <-]. lia.
  - intros tm. rewrite Ht, Hh, elem_of_insert_timer.
    intros [->|Htm]; [done|].
    split.
    + intros Hcb.
      by destruct (filter_nil_not_elem_of
                     (λ tm, timer_callback tm = RevertHighlight)
                     (uncancelled st) tm Hnone Hcb).
    + intros [= Hid]. apply elem_of_uncancelled, (wf_ids st Hwf) in Htm. lia.
  - by rewrite Hrev.
  - intros tm m. rewrite Ht, Hnm, elem_of_insert_timer.
    intros [->|Htm%elem_of_uncancelled]; [done|].
    by apply (wf_markers st Hwf).
  - intros t m. rewrite Htr, Hnm, elem_of_app, list_elem_of_singleton.
    intros [Hin|[=]]. by apply (wf_trace st Hwf t).
Qed.

Lemma revert_timers_handleCM5Highlight (e : Editor) (st : State) :
  revert_timers (handleCM5Highlight e st) = revert_timers st.
Proof.
  destruct (legacy_guard e) eqn:Hg.
  - by rewrite handleCM5Highlight_guarded.
  - unfold revert_timers.
    destruct (handleCM5Highlight_fields e st Hg)
      as (mk &_&_&_&_&_&_& -> &_).
    by apply filter_insert_timer_False.
Qed.

Lemma wf_handleCM5Highlight (e : Editor) (st : State) :
  wf st → wf (handleCM5Highlight e st).
Proof.
  intros Hwf. destruct (legacy_guard e) eqn:Hg.
  { by rewrite handleCM5Highlight_guarded. }
  pose proof (revert_timers_handleCM5Highlight e st) as Hrev.
  destruct (handleCM5Highlight_fields e st Hg)
    as (mk & Hid & Hs & Hh & Hc & Hm & Hnm & Ht & Hnt & Hn & Htr).
  split.
  - intros tm. rewrite Ht, Hnt, elem_of_insert_timer.
    intros [->|Htm]; cbn; [lia|].
    apply (wf_ids st Hwf) in Htm. lia.
  - intros i. rewrite Hh, Hnt. intros Hi%(wf_handle st Hwf). lia.
  - intros tm. rewrite Ht, Hh, elem_of_insert_timer.
    intros [->|Htm]; [|by apply (wf_revert st Hwf)].
    split; [done|]. cbn. intros Hi%(wf_handle st Hwf). lia.
  - rewrite Hrev. apply (wf_one st Hwf).
  - intros tm m. rewrite Ht, Hnm, elem_of_insert_timer.
    intros [->|Htm].
    + cbn. intros [= <-]. lia.
    + intros Hcb. pose proof (wf_markers st Hwf tm m Htm Hcb). lia.
  - intros t m. rewrite Htr, Hnm, elem_of_app, list_elem_of_singleton.
    intros [Hin|[=]]. pose proof (wf_trace st Hwf t m Hin). lia.
Qed.

Lemma wf_onCopy (view : option View) (st : State) :
  wf st → wf (onCopy v view st).
Proof.
  intros Hwf. destruct view as [view|]; [|done].
  rewrite onCopy_cases. case_match.
  - by apply wf_handleCM5Highlight, wf_highlight_started.
  - by apply wf_highlight_started.
Qed.

End CopyHandler.

(** ** The event loop *)

Section EventLoop.

Lemma advance_fields (t : Z) (st : State) :
  settings (advance t st) = settings st
  ∧ timers (advance t st) = filter (λ tm, ¬ timer_due tm ≤ t) (timers st)
  ∧ next_timer (advance t st) = next_timer st
  ∧ next_marker (advance t st) = next_marker st
  ∧ now (advance t st) = t
  ∧ trace (advance t st)
    = trace st
      ++ ((λ tm, (timer_due tm, callback_effect (timer_callback tm)))
            <$> filter (λ tm, timer_due tm ≤ t) (timers st)).
Proof.
  unfold advance. cbn zeta.
  pose proof (foldl_fire_frame (filter (λ tm, timer_due tm ≤ t) (timers st))
    (set_timers (filter (λ tm, ¬ timer_due tm ≤ t) (timers st))
       (next_timer st) st)) as (Hs & _ & _ & Ht & Hnt & Hnm).
  cbn [settings timers next_timer next_marker now trace set_now].
  rewrite Hs, Ht, Hnt, Hnm, foldl_fire_trace. by split_and!.
Qed.

(** The due timers of one kind, as the batch [advance] runs. *)
Lemma filter_due_kind (P : Timer → Prop) `{!∀ x, Decision (P x)} (t : Z)
    (st : State) :
  filter P (filter (λ tm, timer_due tm ≤ t) (timers st))
  = filter (λ tm, timer_due tm ≤ t) (filter P (timers st)).
Proof. apply filter_comm. Qed.

Lemma effects_of_kind (c : Callback) (l : list Timer) :
  (filter (λ p : Z * Effect, p.2 = callback_effect c)
     ((λ tm, (timer_due tm, callback_effect (timer_callback tm))) <$> l)).*1
  = timer_due <$> filter (λ tm, timer_callback tm = c) l.
Proof.
  induction l as [|tm l IH]; [done|].
  rewrite fmap_cons, !filter_cons. cbn [snd].
  assert (callback_effect (timer_callback tm) = callback_effect c
          ↔ timer_callback tm = c) as Hinj.
  { destruct (timer_callback tm), c; cbn; naive_solver. }
  repeat case_decide; rewrite ?fmap_cons, ?IH; naive_solver.
Qed.

Lemma removals_advance (t : Z) (st : State) :
  removals (advance t st)
  = removals st
    ++ (timer_due <$> filter (λ tm, timer_due tm ≤ t) (revert_timers st)).
Proof.
  unfold removals, revert_timers.
  destruct (advance_fields t st) as (_&_&_&_&_& ->).
  rewrite filter_app, fmap_app. f_equal.
  rewrite (effects_of_kind RevertHighlight). f_equal. apply filter_comm.
Qed.

Lemma clears_advance (m : nat) (t : Z) (st : State) :
  clears m (advance t st)
  = clears m st
    ++ (timer_due <$> filter (λ tm, timer_due tm ≤ t) (marker_timers m st)).
Proof.
  unfold clears, marker_timers.
  destruct (advance_fields t st) as (_&_&_&_&_& ->).
  rewrite filter_app, fmap_app. f_equal.
  rewrite (effects_of_kind (ClearMarker m)). f_equal. apply filter_comm.
Qed.

Lemma revert_timers_advance (t : Z) (st : State) :
  revert_timers (advance t st)
  = filter (λ tm, ¬ timer_due tm ≤ t) (revert_timers st).
Proof.
  unfold revert_timers. destruct (advance_fields t st) as (_& -> &_).
  apply filter_comm.
Qed.

Lemma marker_timers_advance (m : nat) (t : Z) (st : State) :
  marker_timers m (advance t st)
  = filter (λ tm, ¬ timer_due tm ≤ t) (marker_timers m st).
Proof.
  unfold marker_timers. destruct (advance_fields t st) as (_& -> &_).
  apply filter_comm.
Qed.

(** Whether the root class and the handle survive depends on whether a
    revert timer was due. *)
Lemma classList_advance (t : Z) (st : State) :
  let due := filter (λ tm, timer_due tm ≤ t) (revert_timers st) in
  classList (advance t st)
  = (if decide (due = []) then classList st else classList st ∖ {[ACTIVE]})
  ∧ highlightTimeout (advance t st)
    = (if decide (due = []) then highlightTimeout st else None).
Proof.
  cbn zeta. unfold revert_timers. rewrite <-filter_due_kind.
  unfold advance. cbn [classList highlightTimeout set_now].
  case_decide as Hdue.
  - by destruct (foldl_fire_no_revert _
      (set_timers (filter (λ tm, ¬ timer_due tm ≤ t) (timers st))
         (next_timer st) st) Hdue) as [-> ->].
  - by destruct (foldl_fire_revert _
      (set_timers (filter (λ tm, ¬ timer_due tm ≤ t) (timers st))
         (next_timer st) st) Hdue) as [-> ->].
Qed.

(** A marker is there after [advance] when it was there before and no
    timer that clears it was due. *)
Lemma markers_advance (t : Z) (st : State) (m : nat) :
  m ∈ marker_id <$> markers (advance t st)
  ↔ m ∈ marker_id <$> markers st
    ∧ filter (λ tm, timer_due tm ≤ t) (marker_timers m st) = [].
Proof.
  unfold advance. cbn [markers set_now]. rewrite !list_elem_of_fmap.
  setoid_rewrite foldl_fire_markers. cbn [markers set_timers].
  unfold marker_timers. rewrite <-filter_due_kind.
  split.
  - intros (x & -> & Hx & Hno). split; [eauto|].
    apply filter_none. intros tm Htm Hcb. apply Hno.
    apply list_elem_of_fmap. eauto.
  - intros [(x & -> & Hx) Hnil]. exists x. split_and!; [done..|].
    intros (tm & Hcb & Htm)%list_elem_of_fmap.
    by destruct (filter_nil_not_elem_of
                   (λ tm, timer_callback tm = ClearMarker (marker_id x))
                   _ tm Hnil).
Qed.

Lemma length_le_1_eq {A : Type} (l : list A) (x y : A) :
  (length l ≤ 1)%nat → x ∈ l → y ∈ l → x = y.
Proof.
  destruct l as [|a [|b l]]; cbn; intros Hl Hx Hy.
  - by apply elem_of_nil in Hx.
  - apply list_elem_of_singleton in Hx, Hy. congruence.
  - lia.
Qed.

Lemma wf_advance (t : Z) (st : State) : wf st → wf (advance t st).
Proof.
  intros Hwf.
  destruct (advance_fields t st) as (Hs & Ht & Hnt & Hnm & Hn & Htr).
  destruct (classList_advance t st) as [_ Hh]. cbn zeta in Hh.
  split.
  - intros tm. rewrite Ht, Hnt, list_elem_of_filter. intros [_ Htm].
    by apply (wf_ids st Hwf).
  - intros i. rewrite Hh, Hnt. case_decide; [|done]. apply (wf_handle st Hwf).
  - intros tm. rewrite Ht, Hh, list_elem_of_filter. intros [Hlate Htm].
    case_decide as Hdue; [by apply (wf_revert st Hwf)|].
    split; [|done]. intros Hcb. destruct Hdue.
    apply filter_none. intros tm' Htm' Hdue'.
    assert (tm' = tm) as ->; [|done].
    apply (length_le_1_eq (revert_timers st)); [apply (wf_one st Hwf)|done|].
    unfold revert_timers. by apply list_elem_of_filter.
  - rewrite revert_timers_advance.
    etrans; [apply length_filter|apply (wf_one st Hwf)].
  - intros tm m. rewrite Ht, Hnm, list_elem_of_filter. intros [_ Htm].
    by apply (wf_markers st Hwf).
  - intros t' m. rewrite Htr, Hnm, elem_of_app, list_elem_of_fmap.
    intros [Hin|(tm & [= -> Hcb] & [_ Htm]%list_elem_of_filter)].
    + by apply (wf_trace st Hwf t').
    + apply (wf_markers st Hwf tm m Htm).
      by destruct (timer_callback tm); simplify_eq/=.
Qed.

End EventLoop.

(** ** Debounce of the revert timer *)

Section Debounce.
Context (v : Variant).

Lemma wf_step (st : State) (e : Event) : wf st → wf (step v st e).
Proof.
  intros Hwf. destruct e as [view|dt|text|text|text]; cbn [step].
  - by apply wf_onCopy.
  - by apply wf_advance.
  - by destruct Hwf.
  - by destruct Hwf.
  - by destruct Hwf.
Qed.

Lemma wf_run (st : State) (events : list Event) :
  wf st → wf (run v st events).
Proof.
  revert st. induction events as [|e events IH]; intros st Hwf; [done|].
  apply IH. by apply wf_step.
Qed.

(** What a copy event with a view leaves behind. *)
Lemma onCopy_summary (view : View) (st : State) :
  wf st →
  let st' := onCopy v (Some view) st in
  revert_timers st' = [new_revert_timer st]
  ∧ ACTIVE ∈ classList st'
  ∧ removals st' = removals st
  ∧ now st' = now st
  ∧ settings st' = settings st.
Proof.
  intros Hwf. cbn zeta.
  rewrite onCopy_now, onCopy_settings, onCopy_cases.
  pose proof (revert_timers_highlight_started v st Hwf) as Hrev.
  destruct (highlight_started_fields v st)
    as (Hs & Hh & Hc & Hm & Hnm & Ht & Hnt & Hn & Htr).
  assert (Hrem : removals (highlight_started v st) = removals st).
  { unfold removals. rewrite Htr, filter_app, filter_cons_False by done.
    by rewrite filter_nil, app_nil_r. }
  destruct (legacy_applies view) eqn:Happ.
  - apply andb_prop in Happ as [_ Hg%negb_true_iff].
    destruct (handleCM5Highlight_fields (editor view)
                (highlight_started v st) Hg)
      as (mk & _ & _ & _ & Hc' & _ & _ & _ & _ & _ & Htr').
    rewrite revert_timers_handleCM5Highlight, Hrev, Hc', Hc.
    split_and!; [done|set_solver| |done..].
    unfold removals. rewrite Htr', filter_app, filter_cons_False by done.
    by rewrite filter_nil, app_nil_r.
  - rewrite Hrev, Hc. split_and!; [done|set_solver|done..].
Qed.

(** C1: the revert timer is debounced.  After a copy event with a view, in
    any state the plugin can reach, the only pending revert timer is the
    one this event set: the timer of an earlier event is cancelled.  So
    with copy events at times 0 and [g] and a duration [d] longer than
    [g], the root class is still there at every time before [g + d] and is
    removed exactly once, at [g + d] (at 150 and not at 100 for copies at 0
    and 50 with duration 100). *)
Theorem onCopy_debounce (blob : option HighlightOnCopySettings)
    (events : list Event) (view view1 view2 : View) (g d T : Z) :
  let st := run v (onload v blob) events in
  revert_timers (onCopy v (Some view) st) = [new_revert_timer st]
  ∧ (duration (settings (onload v blob)) = Some (JS.Num d) →
     0 ≤ g < d → d < 2 ^ 31 → 0 ≤ T →
     let st' := run v (onload v blob)
                  [Copy (Some view1); Elapse g; Copy (Some view2); Elapse T] in
     now st' = g + T
     ∧ (ACTIVE ∈ classList st' ↔ T < d)
     ∧ removals st' = if decide (T < d) then [] else [g + d]).
Proof.
  cbn zeta. split.
  { apply onCopy_summary, wf_run, wf_initial. }
  intros Hd Hg Hd31 HT. unfold run. cbn [foldl step].
  rewrite (Z.max_r 0 g), (Z.max_r 0 T) by lia.
  pose proof (wf_initial v blob) as Hwf0.
  set (st0 := onload v blob) in *.
  destruct (onCopy_summary view1 st0 Hwf0) as (Hrev1 & _ & Hrem1 & Hn1 & Hs1).
  change (now st0) with 0 in Hn1. change (removals st0) with (@nil Z) in Hrem1.
  pose proof (wf_onCopy v (Some view1) st0 Hwf0) as Hwf1.
  set (st1 := onCopy v (Some view1) st0) in *.
  assert (Hdue1 : timer_due (new_revert_timer st0) = d).
  { unfold new_revert_timer. cbn [timer_due].
    rewrite Hd, timer_delay_in_range by lia. done. }
  pose proof (wf_advance (now st1 + g) st1 Hwf1) as Hwf2.
  pose proof (removals_advance (now st1 + g) st1) as Hrem2.
  destruct (advance_fields (now st1 + g) st1)
    as (Hs2 & _ & _ & _ & Hn2 & _).
  set (st2 := advance (now st1 + g) st1) in *.
  rewrite Hrev1, filter_cons, filter_nil, Hn1 in Hrem2.
  rewrite decide_False in Hrem2 by (rewrite Hdue1; cbn; lia).
  rewrite app_nil_r, Hrem1 in Hrem2.
  destruct (onCopy_summary view2 st2 Hwf2) as (Hrev3 & Hc3 & Hrem3 & Hn3 & Hs3).
  set (st3 := onCopy v (Some view2) st2) in *.
  assert (Hdue3 : timer_due (new_revert_timer st2) = g + d).
  { unfold new_revert_timer. cbn [timer_due].
    rewrite Hs2, Hs1, Hd, timer_delay_in_range, Hn2, Hn1 by lia.
    cbn. lia. }
  pose proof (removals_advance (now st3 + T) st3) as Hrem4.
  destruct (classList_advance (now st3 + T) st3) as [Hc4 _].
  destruct (advance_fields (now st3 + T) st3)
    as (_ & _ & _ & _ & Hn4 & _).
  cbn zeta in Hc4. set (st4 := advance (now st3 + T) st3) in *.
  rewrite Hrev3, filter_cons, filter_nil in Hrem4, Hc4.
  rewrite Hn3, Hn2, Hn1, Hdue3 in Hrem4, Hc4. rewrite Hn3, Hn2, Hn1 in Hn4.
  rewrite Hn4, Hc4, Hrem4, Hrem3, Hrem2. cbn [app].
  split; [lia|].
  destruct (decide (T < d)) as [Hlt|Hge];
    destruct (decide (g + d ≤ _)) as [Hle|Hgt]; try lia.
  - rewrite decide_True by done. by split.
  - rewrite decide_False by done. cbn [fmap list_fmap]. rewrite Hdue3.
    split; [|done]. split; [set_solver|lia].
Qed.

End Debounce.

Lemma onCopy_debounce_witness :
  duration (settings (onload VariantA None)) = Some (JS.Num 100)
  ∧ removals (run VariantA (onload VariantA None)
                [Copy (Some modern_view); Elapse 50;
                 Copy (Some modern_view); Elapse 100]) = [150]
  ∧ ACTIVE ∉ classList (run VariantA (onload VariantA None)
                           [Copy (Some modern_view); Elapse 50;
                            Copy (Some modern_view); Elapse 100]).
Proof.
  destruct (onCopy_debounce VariantA None [] modern_view modern_view
              modern_view 50 100 100) as [_ Hscenario].
  destruct Hscenario as (_ & Hclass & Hrem); [reflexivity|lia..|].
  split_and!; [reflexivity|exact Hrem|].
  intros Hin. apply Hclass in Hin. lia.
Defined.

(** ** The timer of a legacy marker *)

Section LegacyTimer.
Context (v : Variant).

Lemma filter_all {A : Type} (P : A → Prop) `{!∀ x, Decision (P x)}
    (l : list A) :
  (∀ x, x ∈ l → P x) → filter P l = l.
Proof.
  induction l as [|a l IH]; intros Hl; [done|].
  rewrite filter_cons_True by (apply Hl; left).
  f_equal. apply IH. intros x Hx. apply Hl. by right.
Qed.

Lemma clears_snoc (m : nat) (tr : list (Z * Effect)) (t : Z) (e : Effect) :
  e ≠ MarkerCleared m →
  (filter (λ p : Z * Effect, p.2 = MarkerCleared m) (tr ++ [(t, e)])).*1
  = (filter (λ p : Z * Effect, p.2 = MarkerCleared m) tr).*1.
Proof.
  intros He. rewrite filter_app, filter_cons_False by done.
  by rewrite filter_nil, app_nil_r.
Qed.

(** The first part of [onCopy] leaves the timer and the marker of [m]
    alone. *)
Lemma highlight_started_marker (m : nat) (st : State) :
  wf st →
  marker_timers m (highlight_started v st) = marker_timers m st
  ∧ markers (highlight_started v st) = markers st
  ∧ clears m (highlight_started v st) = clears m st.
Proof.
  intros Hwf.
  destruct (highlight_started_fields v st)
    as (Hs & Hh & Hc & Hm & Hnm & Ht & Hnt & Hn & Htr).
  split_and!; [|done|].
  - unfold marker_timers. rewrite Ht.
    rewrite filter_insert_timer_False by done.
    unfold uncancelled. destruct (highlightTimeout st) as [id|] eqn:Hid; [|done].
    rewrite filter_comm. apply filter_all.
    intros tm [Hcb Htm]%list_elem_of_filter Heq.
    assert (timer_callback tm = RevertHighlight) as Hrev.
    { apply (wf_revert st Hwf tm Htm). by rewrite Hid, Heq. }
    congruence.
  - unfold clears. rewrite Htr. by apply clears_snoc.
Qed.

(** The legacy highlighter leaves the timer and the marker of an older
    marker [m] alone. *)
Lemma handleCM5Highlight_marker (m : nat) (e : Editor) (st : State) :
  (m < next_marker st)%nat →
  marker_timers m (handleCM5Highlight e st) = marker_timers m st
  ∧ (m ∈ marker_id <$> markers (handleCM5Highlight e st)
     ↔ m ∈ marker_id <$> markers st)
  ∧ clears m (handleCM5Highlight e st) = clears m st
  ∧ (m < next_marker (handleCM5Highlight e st))%nat.
Proof.
  intros Hm. destruct (legacy_guard e) eqn:Hg.
  { by rewrite handleCM5Highlight_guarded. }
  destruct (handleCM5Highlight_fields e st Hg)
    as (mk & Hid & _ & _ & _ & Hmk & Hnm & Ht & _ & _ & Htr).
  split_and!.
  - unfold marker_timers. rewrite Ht. apply filter_insert_timer_False.
    cbn. intros [= Heq]. lia.
  - rewrite Hmk, fmap_app, elem_of_app. cbn.
    rewrite list_elem_of_singleton, Hid. split; [|by left].
    intros [?|?]; [done|lia].
  - unfold clears. rewrite Htr. by apply clears_snoc.
  - rewrite Hnm. lia.
Qed.

Lemma onCopy_marker (m : nat) (view : option View) (st : State) :
  wf st → (m < next_marker st)%nat →
  marker_timers m (onCopy v view st) = marker_timers m st
  ∧ (m ∈ marker_id <$> markers (onCopy v view st)
     ↔ m ∈ marker_id <$> markers st)
  ∧ clears m (onCopy v view st) = clears m st
  ∧ (m < next_marker (onCopy v view st))%nat.
Proof.
  intros Hwf Hm. destruct view as [view|]; [|done].
  destruct (highlight_started_marker m st Hwf) as (Ht & Hmk & Hcl).
  destruct (highlight_started_fields v st) as (_&_&_&_& Hnm &_).
  rewrite onCopy_cases. case_match.
  - destruct (handleCM5Highlight_marker m (editor view)
                (highlight_started v st)) as (-> & -> & -> & Hlt).
    + by rewrite Hnm.
    + by rewrite Ht, Hmk, Hcl.
  - by rewrite Ht, Hmk, Hcl, Hnm.
Qed.

Lemma marker_pending_step (m : nat) (tm : Timer) (st : State) (e : Event) :
  marker_pending m tm st →
  marker_pending m tm (step v st e)
  ∨ marker_done m (timer_due tm) (step v st e).
Proof.
  intros [Hwf Ht Hmk Hcl Hm Hn].
  pose proof (wf_step v st e Hwf) as Hwf'.
  destruct e as [view|dt|text|text|text]; cbn [step] in *;
    [| |by left..].
  - left. destruct (onCopy_marker m view st Hwf Hm) as (Ht' & Hmk' & Hcl' & Hm').
    split; [done|congruence|by apply Hmk'|congruence|done|].
    by rewrite onCopy_now.
  - set (t := now st + Z.max 0 dt) in *.
    destruct (advance_fields t st) as (_ & _ & _ & Hnm & Hnow & _).
    pose proof (marker_timers_advance m t st) as Ht'.
    pose proof (clears_advance m t st) as Hcl'.
    pose proof (markers_advance t st m) as Hmk'.
    rewrite Ht, filter_cons, filter_nil in Ht', Hcl', Hmk'.
    rewrite Hcl in Hcl'.
    destruct (decide (timer_due tm ≤ t)) as [Hdue|Hlate].
    + right. rewrite decide_False in Ht' by tauto.
      split; [done|done| |done|by rewrite Hnm|by rewrite Hnow].
      rewrite Hmk'. by intros [_ ?].
    + left. rewrite decide_True in Ht' by done.
      split; [done|done|by apply Hmk'|done|by rewrite Hnm|].
      rewrite Hnow. lia.
Qed.

Lemma marker_done_step (m : nat) (D : Z) (st : State) (e : Event) :
  marker_done m D st → marker_done m D (step v st e).
Proof.
  intros [Hwf Ht Hmk Hcl Hm Hn].
  pose proof (wf_step v st e Hwf) as Hwf'.
  destruct e as [view|dt|text|text|text]; cbn [step] in *;
    [| |by split..].
  - destruct (onCopy_marker m view st Hwf Hm) as (Ht' & Hmk' & Hcl' & Hm').
    split; [done|congruence|by rewrite Hmk'|congruence|done|].
    by rewrite onCopy_now.
  - set (t := now st + Z.max 0 dt) in *.
    destruct (advance_fields t st) as (_ & _ & _ & Hnm & Hnow & _).
    pose proof (marker_timers_advance m t st) as Ht'.
    pose proof (clears_advance m t st) as Hcl'.
    pose proof (markers_advance t st m) as Hmk'.
    rewrite Ht, filter_nil in Ht', Hcl', Hmk'.
    rewrite Hcl in Hcl'.
    split; [done|done| |done|by rewrite Hnm|].
    + rewrite Hmk'. by intros [? _].
    + rewrite Hnow. unfold t. lia.
Qed.

Lemma marker_done_run (m : nat) (D : Z) (st : State) (events : list Event) :
  marker_done m D st → marker_done m D (run v st events).
Proof.
  revert st. induction events as [|e events IH]; intros st Hst; [done|].
  apply IH. by apply marker_done_step.
Qed.

Lemma marker_pending_run (m : nat) (tm : Timer) (st : State)
    (events : list Event) :
  marker_pending m tm st →
  marker_pending m tm (run v st events)
  ∨ marker_done m (timer_due tm) (run v st events).
Proof.
  revert st. induction events as [|e events IH]; intros st Hst;
    [left; exact Hst|].
  destruct (marker_pending_step m tm st e Hst) as [Hp|Hd].
  - by apply IH.
  - right. exact (marker_done_run m (timer_due tm) (step v st e) events Hd).
Qed.

(** A copy event that reaches the legacy highlighter past its guard makes
    marker [next_marker st] and the one timer that clears it. *)
Lemma onCopy_marker_pending (view : View) (st : State) :
  wf st → legacy_applies view = true →
  marker_pending (next_marker st)
    {| timer_id := S (next_timer st);
       timer_due := now st + timer_delay (duration (settings st));
       timer_callback := ClearMarker (next_marker st) |}
    (onCopy v (Some view) st).
Proof.
  intros Hwf Happ.
  pose proof (wf_onCopy v (Some view) st Hwf) as Hwf'.
  pose proof (onCopy_now v (Some view) st) as Hnow.
  rewrite onCopy_cases, Happ in *.
  apply andb_prop in Happ as [_ Hg%negb_true_iff].
  pose proof (wf_highlight_started v st Hwf) as Hwfs.
  destruct (highlight_started_fields v st)
    as (Hs & Hh & Hc & Hm & Hnm & Ht & Hnt & Hn & Htr).
  destruct (handleCM5Highlight_fields (editor view) (highlight_started v st) Hg)
    as (mk & Hid & _ & _ & _ & Hmk' & Hnm' & Ht' & _ & _ & Htr').
  assert (Htm : new_marker_timer (highlight_started v st)
                = {| timer_id := S (next_timer st);
                     timer_due := now st + timer_delay (duration (settings st));
                     timer_callback := ClearMarker (next_marker st) |}).
  { unfold new_marker_timer. by rewrite Hnt, Hn, Hs, Hnm. }
  split.
  - done.
  - unfold marker_timers. rewrite Ht', Htm.
    apply filter_insert_timer_nil; [done|].
    apply filter_none. intros tm Htm' Hcb.
    pose proof (wf_markers _ Hwfs tm _ Htm' Hcb). lia.
  - rewrite Hmk', fmap_app, elem_of_app. right.
    cbn. rewrite Hid, Hnm. apply list_elem_of_here.
  - unfold clears. rewrite Htr', clears_snoc, Htr, clears_snoc by done.
    rewrite filter_none; [done|]. intros [t e] Hin Heq. cbn in Heq. subst e.
    pose proof (wf_trace st Hwf t _ Hin). lia.
  - rewrite Hnm', Hnm. lia.
  - rewrite Hnow. cbn. unfold timer_delay. repeat case_match; lia.
Qed.

End LegacyTimer.

Section LegacyTimerClaim.
Context (v : Variant).

(** C2: the timer of a legacy marker is on its own.  A copy event that
    reaches the legacy highlighter makes a marker and sets one timer that
    clears this marker, due after the delay [setTimeout] makes of the
    configured duration (the duration itself, from 0 up to 2^31 - 1).
    Whatever happens afterwards, further copy events included, this timer
    stays pending and the marker stays marked until that time, and once
    that time has passed the marker has been cleared exactly once, at that
    time.  (The revert timer of the root class, in contrast, is replaced
    by each copy event.) *)
Theorem legacy_marker_timer_independent
    (blob : option HighlightOnCopySettings) (events later : list Event)
    (view : View) :
  let st := run v (onload v blob) events in
  let m := next_marker st in
  let D := now st + timer_delay (duration (settings st)) in
  let tm := {| timer_id := S (next_timer st); timer_due := D;
               timer_callback := ClearMarker m |} in
  let st' := run v (onCopy v (Some view) st) later in
  legacy_applies view = true →
  marker_timers m (onCopy v (Some view) st) = [tm]
  ∧ (now st' < D →
     marker_timers m st' = [tm]
     ∧ m ∈ (marker_id <$> markers st')
     ∧ clears m st' = [])
  ∧ (D < now st' →
     marker_timers m st' = []
     ∧ (m ∉ marker_id <$> markers st')
     ∧ clears m st' = [D])
  ∧ (∀ d, duration (settings st) = Some (JS.Num d) → 0 ≤ d < 2 ^ 31 →
     D = now st + d).
Proof.
  intros st m D tm st' Happ.
  assert (Hwf : wf st) by apply wf_run, wf_initial.
  pose proof (onCopy_marker_pending v view st Hwf Happ) as Hpending.
  fold m D tm in Hpending.
  split_and!.
  - apply Hpending.
  - intros Hnow.
    destruct (marker_pending_run v m tm _ later Hpending) as [Hp|Hd].
    + destruct Hp as [_ Ht Hmk Hcl _ _]. by split_and!.
    + destruct Hd as [_ _ _ _ _ Hn]. cbn [timer_due tm] in Hn.
      unfold st' in Hnow. lia.
  - intros Hnow.
    destruct (marker_pending_run v m tm _ later Hpending) as [Hp|Hd].
    + destruct Hp as [_ _ _ _ _ Hn]. cbn [timer_due tm] in Hn.
      unfold st' in Hnow. lia.
    + destruct Hd as [_ Ht Hmk Hcl _ _]. by split_and!.
  - intros d Hd Hrange. unfold D. by rewrite Hd, timer_delay_in_range.
Qed.

End LegacyTimerClaim.

(** Copies at 0 and 50 on the legacy editor with duration 100: the first
    marker is cleared at 100 and the second at 150, each by its own timer,
    while the root class is removed once, at 150. *)
Example legacy_timers_run_apart :
  let sel := {| anchor := {| line := 2; ch := 5 |};
                head := {| line := 1; ch := 3 |} |} in
  let st := run VariantA (onload VariantA None)
              [Copy (Some (legacy_view 0 [sel])); Elapse 50;
               Copy (Some (legacy_view 0 [sel])); Elapse 100] in
  clears 0 st = [100] ∧ clears 1 st = [150] ∧ removals st = [150]
  ∧ markers st = [] ∧ timers st = [].
Proof. by vm_compute. Qed.

Lemma legacy_marker_timer_independent_witness :
  let sel := {| anchor := {| line := 2; ch := 5 |};
                head := {| line := 1; ch := 3 |} |} in
  let view := legacy_view 0 [sel] in
  legacy_applies view = true
  ∧ clears 0 (run VariantA (onCopy VariantA (Some view) (onload VariantA None))
                [Elapse 50; Copy (Some view); Elapse 60]) = [100]
  ∧ marker_timers 0 (run VariantA
                       (onCopy VariantA (Some view) (onload VariantA None))
                       [Elapse 50; Copy (Some view)])
    = [{| timer_id := 2; timer_due := 100; timer_callback := ClearMarker 0 |}].
Proof.
  intros sel view.
  split; [reflexivity|]. split.
  - destruct (legacy_marker_timer_independent VariantA None [] 
                [Elapse 50; Copy (Some view); Elapse 60] view eq_refl)
      as (_ & _ & Hafter & _).
    apply Hafter. vm_compute. reflexivity.
  - destruct (legacy_marker_timer_independent VariantA None []
                [Elapse 50; Copy (Some view)] view eq_refl)
      as (_ & Hbefore & _ & _).
    apply Hbefore. vm_compute. reflexivity.
Defined.

(** ** The two scenarios of the specification, section 8 *)

(** Variant A, settings red / empty / 200, a modern source view with no
    selection: the three properties are set, the root class is added at
    once and removed at 200, and no marker is made. *)
Example scenario_modern :
  let st0 := onload VariantA
               (Some {| backgroundColor := Some "red";
                        foregroundColor := Some "";
                        duration := Some (JS.Num 200) |}) in
  let st1 := onCopy VariantA (Some modern_view) st0 in
  let st2 := run VariantA st1 [Elapse 200] in
  style st1 !! "--hbg" = Some "red"
  ∧ style st1 !! "--hfg" = Some "inherit"
  ∧ style st1 !! "--hdur" = Some "200ms"
  ∧ ACTIVE ∈ classList st1
  ∧ (ACTIVE ∉ classList st2)
  ∧ trace st2 = [(0, ClassAdded ACTIVE); (200, ClassRemoved ACTIVE)].
Proof.
  split_and!; by vm_compute.
Qed.

(** The legacy engine, a selection from line 2 column 5 back to line 1
    column 3: the marker runs from (1, 3) to (2, 5) and is cleared after
    the duration, a later copy event notwithstanding. *)
Example scenario_legacy :
  let sel := {| anchor := {| line := 2; ch := 5 |};
                head := {| line := 1; ch := 3 |} |} in
  let st1 := onCopy VariantA (Some (legacy_view 0 [sel]))
               (onload VariantA None) in
  let st2 := run VariantA st1 [Elapse 99; Copy (Some modern_view); Elapse 1] in
  (marker_from <$> markers st1) = [{| line := 1; ch := 3 |}]
  ∧ (marker_to <$> markers st1) = [{| line := 2; ch := 5 |}]
  ∧ clears 0 st2 = [100]
  ∧ markers st2 = []
  ∧ ACTIVE ∈ classList st2.
Proof.
  split_and!; by vm_compute.
Qed.

(** ** The states the plugin reaches *)

Section Reachable.
Context (v : Variant).

Lemma insert_timer_sorted (tm : Timer) (l : list Timer) :
  StronglySorted (λ a b, timer_due a ≤ timer_due b) l →
  StronglySorted (λ a b, timer_due a ≤ timer_due b) (insert_timer tm l).
Proof.
  induction 1 as [|x r Hr IH Hx]; cbn [insert_timer].
  - by repeat constructor.
  - destruct (Z.leb_spec (timer_due x) (timer_due tm)) as [Hle|Hlt].
    + constructor; [done|]. apply Forall_forall. intros y.
      rewrite elem_of_insert_timer. intros [->|Hy]; [done|].
      by apply (proj1 (Forall_forall _ _) Hx).
    + constructor; [by constructor|]. constructor; [lia|].
      apply Forall_forall. intros y Hy.
      pose proof (proj1 (Forall_forall _ _) Hx y Hy). cbn in *. lia.
Qed.

Lemma filter_sorted (P : Timer → Prop) `{!∀ x, Decision (P x)}
    (l : list Timer) :
  StronglySorted (λ a b, timer_due a ≤ timer_due b) l →
  StronglySorted (λ a b, timer_due a ≤ timer_due b) (filter P l).
Proof.
  induction 1 as [|x r Hr IH Hx]; [constructor|].
  rewrite filter_cons. case_decide; [|done].
  constructor; [done|]. apply Forall_forall.
  intros y [_ Hy]%list_elem_of_filter.
  by apply (proj1 (Forall_forall _ _) Hx).
Qed.

Lemma uncancelled_sorted (st : State) :
  StronglySorted (λ a b, timer_due a ≤ timer_due b) (timers st) →
  StronglySorted (λ a b, timer_due a ≤ timer_due b) (uncancelled st).
Proof.
  unfold uncancelled. destruct (highlightTimeout st); [|done].
  apply filter_sorted.
Qed.

Lemma timers_in_order_step (st : State) (e : Event) :
  timers_in_order st → timers_in_order (step v st e).
Proof.
  intros [Hsorted Hdue].
  destruct e as [[view|]|dt|text|text|text]; cbn [step]; try done.
  - assert (timers_in_order (highlight_started v st)) as [Hsorted' Hdue'].
    { destruct (highlight_started_fields v st)
        as (_ & _ & _ & _ & _ & Ht & _ & Hn & _).
      split; rewrite Ht.
      - by apply insert_timer_sorted, uncancelled_sorted.
      - intros tm. rewrite Hn, elem_of_insert_timer.
        intros [->|Htm%elem_of_uncancelled]; [|by apply Hdue].
        unfold new_revert_timer. cbn [timer_due].
        pose proof (timer_delay_nonneg (duration (settings st))). lia. }
    rewrite onCopy_cases. destruct (legacy_applies view) eqn:Happ; [|done].
    apply andb_prop in Happ as [_ Hg%negb_true_iff].
    destruct (handleCM5Highlight_fields (editor view)
                (highlight_started v st) Hg)
      as (mk & _ & _ & _ & _ & _ & _ & Ht & _ & Hn & _).
    split; rewrite Ht.
    + by apply insert_timer_sorted.
    + intros tm. rewrite Hn, elem_of_insert_timer.
      intros [->|Htm]; [|by apply Hdue'].
      unfold new_marker_timer. cbn [timer_due].
      pose proof (timer_delay_nonneg
                    (duration (settings (highlight_started v st)))).
      lia.
  - destruct (advance_fields (now st + Z.max 0 dt) st)
      as (_ & Ht & _ & _ & Hn & _).
    split; rewrite Ht.
    + by apply filter_sorted.
    + intros tm [Hlate _]%list_elem_of_filter. rewrite Hn. lia.
Qed.

(** In every state the plugin reaches the timers are well formed and in
    order, and the settings own their three properties. *)
Lemma reachable_invariants (blob : option HighlightOnCopySettings)
    (events : list Event) :
  let st := run v (onload v blob) events in
  wf st ∧ timers_in_order st ∧ owns_all (settings st).
Proof.
  cbn zeta. split_and!.
  - apply wf_run, wf_initial.
  - assert (H0 : timers_in_order (onload v blob)).
    { split; cbn; [constructor|]. by intros tm ?%elem_of_nil. }
    revert H0. generalize (onload v blob).
    induction events as [|e events IH]; intros st Hst; [done|].
    apply IH. by apply timers_in_order_step.
  - assert (H0 : owns_all (settings (onload v blob))).
    { apply loadSettings_owns_all. }
    revert H0. generalize (onload v blob).
    induction events as [|e events IH]; intros st Hst; [done|].
    apply IH. clear IH. unfold owns_all in *.
    destruct e as [view|dt|text|text|text]; cbn [step].
    + by rewrite onCopy_settings.
    + by rewrite advance_settings.
    + destruct v; cbn; unfold js_or; [destruct (truthy _)|];
        naive_solver.
    + cbn. naive_solver.
    + cbn. rewrite duration_of_text_eq. naive_solver.
Qed.

End Reachable.

(** * Further properties *)

(** ** The range the legacy highlighter marks *)

Section MarkedRange.
Context (v : Variant).

(** X1: for every selection, collapsed or not, the pair [normalize] gives
    is in document order ([to] is not before [from]), it is the two ends
    of the selection in one order or the other, and normalizing it again
    changes nothing. *)
Theorem normalize_ordered (sel : Range) :
  let from := (normalize sel).1 in
  let to := (normalize sel).2 in
  ¬ before to from
  ∧ ((from, to) = (anchor sel, head sel) ∨ (from, to) = (head sel, anchor sel))
  ∧ normalize {| anchor := from; head := to |} = (from, to).
Proof.
  destruct sel as [[la ca] [lh ch']]. unfold normalize, before. cbn.
  destruct (Z.ltb_spec lh la), (Z.eqb_spec lh la), (Z.ltb_spec ch' ca);
    cbn;
    repeat match goal with
      | |- context [Z.ltb ?a ?b] => destruct (Z.ltb_spec a b)
      | |- context [Z.eqb ?a ?b] => destruct (Z.eqb_spec a b)
      end; cbn; split_and!; auto; try lia.
Qed.

Lemma legacy_applies_marked_selection (view : View) :
  legacy_applies view = bool_decide (is_Some (marked_selection view)).
Proof.
  unfold legacy_applies, marked_selection, isCM6, legacy_guard.
  destruct (bool_decide (getMode view = "source")); [|done].
  destruct (cm (editor view)) as [c|].
  - rewrite bool_decide_true by eauto. rewrite andb_false_r. cbn.
    destruct (has_markText c); [|done].
    by destruct (listSelections c) as [[|sel rest]|].
  - cbn. by rewrite andb_false_r.
Qed.

(** The markers and the counters after a copy event, by what the view
    lets the legacy highlighter mark. *)
Lemma onCopy_markers_cases (view : View) (st : State) :
  let st' := onCopy v (Some view) st in
  match marked_selection view with
  | Some (c, sel) =>
      markers st'
      = markers st
        ++ [new_marker st (cm_id c) (normalize sel).1 (normalize sel).2]
      ∧ next_marker st' = S (next_marker st)
      ∧ next_timer st' = S (S (next_timer st))
  | None =>
      markers st' = markers st
      ∧ next_marker st' = next_marker st
      ∧ next_timer st' = S (next_timer st)
  end.
Proof.
  cbn zeta. rewrite onCopy_cases, legacy_applies_marked_selection.
  destruct (highlight_started_fields v st)
    as (_ & _ & _ & Hm & Hnm & _ & Hnt & _ & _).
  unfold marked_selection.
  destruct (bool_decide (getMode view = "source")); [|done].
  destruct (cm (editor view)) as [c|] eqn:Hcm; [|done].
  destruct (has_markText c) eqn:Hmark; [|done].
  destruct (listSelections c) as [[|sel rest]|] eqn:Hsels; try done.
  rewrite bool_decide_true by eauto.
  rewrite (handleCM5Highlight_marks _ c sel rest _ Hcm Hmark Hsels).
  cbn [markers next_marker next_timer set_timers record_effect set_markers].
  rewrite Hm, Hnm, Hnt. unfold new_marker. by rewrite Hnm.
Qed.

(** The timers and the trace after a copy event, by what the view lets
    the legacy highlighter mark. *)
Lemma onCopy_timers_cases (view : View) (st : State) :
  let st' := onCopy v (Some view) st in
  let revert := insert_timer (new_revert_timer st) (uncancelled st) in
  match marked_selection view with
  | Some (c, sel) =>
      timers st'
      = insert_timer
          {| timer_id := S (next_timer st);
             timer_due := now st + timer_delay (duration (settings st));
             timer_callback := ClearMarker (next_marker st) |} revert
      ∧ trace st'
        = trace st
          ++ [(now st, ClassAdded ACTIVE);
              (now st,
               MarkerCreated (new_marker st (cm_id c) (normalize sel).1
                                (normalize sel).2))]
  | None =>
      timers st' = revert
      ∧ trace st' = trace st ++ [(now st, ClassAdded ACTIVE)]
  end.
Proof.
  cbn zeta. rewrite onCopy_cases, legacy_applies_marked_selection.
  destruct (highlight_started_fields v st)
    as (Hs & _ & _ & _ & Hnm & Ht & Hnt & Hn & Htr).
  unfold marked_selection.
  destruct (bool_decide (getMode view = "source")); [|done].
  destruct (cm (editor view)) as [c|] eqn:Hcm; [|done].
  destruct (has_markText c) eqn:Hmark; [|done].
  destruct (listSelections c) as [[|sel rest]|] eqn:Hsels; try done.
  rewrite bool_decide_true by eauto.
  rewrite (handleCM5Highlight_marks _ c sel rest _ Hcm Hmark Hsels).
  cbn [timers trace now set_timers record_effect set_markers].
  unfold new_marker_timer, new_marker.
  rewrite Hs, Ht, Hnt, Hn, Hnm, Htr, <-app_assoc. done.
Qed.

(** X2: which copy events make a marker, and the timers they set.  A copy
    event with a view makes a marker exactly when the view is in source
    mode and its editor has a [cm] handle with a [markText] method and a
    selection list that is not empty; whether the editor also has a
    [state] property makes no difference.  The marker covers the first
    selection only, normalized.  The timer table is then the table
    without the timer of the handle the plugin held, with the new revert
    timer, and with one timer more, due after the same delay, that clears
    the new marker; in every other case the markers are as before and the
    new revert timer is the only timer set.  The trace grows by the class
    added and, if one was made, the marker. *)
Theorem onCopy_markers (view : View) (st : State) :
  let st' := onCopy v (Some view) st in
  let revert := insert_timer (new_revert_timer st) (uncancelled st) in
  match marked_selection view with
  | Some (c, sel) =>
      let m := new_marker st (cm_id c) (normalize sel).1 (normalize sel).2 in
      markers st' = markers st ++ [m]
      ∧ next_marker st' = S (next_marker st)
      ∧ next_timer st' = S (S (next_timer st))
      ∧ timers st'
        = insert_timer
            {| timer_id := S (next_timer st);
               timer_due := now st + timer_delay (duration (settings st));
               timer_callback := ClearMarker (next_marker st) |} revert
      ∧ trace st'
        = trace st ++ [(now st, ClassAdded ACTIVE); (now st, MarkerCreated m)]
  | None =>
      markers st' = markers st
      ∧ next_marker st' = next_marker st
      ∧ next_timer st' = S (next_timer st)
      ∧ timers st' = revert
      ∧ trace st' = trace st ++ [(now st, ClassAdded ACTIVE)]
  end.
Proof.
  pose proof (onCopy_markers_cases view st) as Hm.
  pose proof (onCopy_timers_cases view st) as Ht.
  cbn zeta in *. destruct (marked_selection view) as [[c sel]|].
  - destruct Hm as (? & ? & ?), Ht as (? & ?). by split_and!.
  - destruct Hm as (? & ? & ?), Ht as (? & ?). by split_and!.
Qed.

End MarkedRange.

(** ** Settings and the data file *)

Section DataFile.
Context (v : Variant).

Lemma onCopy_data (view : option View) (st : State) :
  data (onCopy v view st) = data st.
Proof.
  destruct view as [view|]; [|done]. rewrite onCopy_cases.
  assert (Hs : data (highlight_started v st) = data st).
  { unfold highlight_started.
    destruct (applyStyles_only_style v st) as [s ->]. cbn zeta.
    cbn [highlightTimeout set_style].
    destruct (highlightTimeout st); reflexivity. }
  destruct (legacy_applies view) eqn:Happ; [|done].
  apply andb_prop in Happ as [_ Hg%negb_true_iff].
  destruct (legacy_unguarded _ Hg) as (c & sel & rest & Hcm & Hmark & Hsels).
  by rewrite (handleCM5Highlight_marks _ c sel rest _ Hcm Hmark Hsels).
Qed.

Lemma advance_data (t : Z) (st : State) : data (advance t st) = data st.
Proof.
  unfold advance. cbn [data set_now].
  by destruct (foldl_fire_frame (filter (λ tm, timer_due tm ≤ t) (timers st))
    (set_timers (filter (λ tm, ¬ timer_due tm ≤ t) (timers st))
       (next_timer st) st)) as (_ & -> & _).
Qed.

Lemma step_data_edit (st : State) (e : Event) :
  is_edit e = true →
  data (step v st e) = Some (JSON_image (settings (step v st e))).
Proof. by destruct e. Qed.

Lemma step_data_other (st : State) (e : Event) :
  is_edit e = false →
  data (step v st e) = data st ∧ settings (step v st e) = settings st.
Proof.
  destruct e as [view|dt|text|text|text]; try done; intros _; cbn [step].
  - by rewrite onCopy_settings, onCopy_data.
  - by rewrite advance_settings, advance_data.
Qed.

(** The data file after a run: as it was until the first edit, then what
    the file written for the settings in force gives. *)
Lemma run_data (st : State) (events : list Event) :
  data (run v st events)
  = (if has_edit events
     then Some (JSON_image (settings (run v st events)))
     else data st)
  ∧ (has_edit events = false → settings (run v st events) = settings st).
Proof.
  revert st. induction events as [|e events IH]; intros st; [done|].
  unfold has_edit in *. cbn [run foldl existsb].
  destruct (IH (step v st e)) as [Hd Hs]. fold (run v (step v st e) events).
  destruct (is_edit e) eqn:He; cbn [orb].
  - split; [|done]. rewrite Hd.
    destruct (existsb is_edit events); [done|].
    by rewrite Hs, step_data_edit.
  - destruct (step_data_other st e He) as [Hd' Hs'].
    rewrite Hd, Hd'. split; [done|]. intros Hno. by rewrite Hs, Hs'.
Qed.

Lemma Object_assign_owns_all (s : HighlightOnCopySettings) :
  owns_all s →
  Object_assign empty_object [Some (DEFAULT_SETTINGS v); Some s] = s.
Proof.
  destruct s as [b f d].
  by intros ([? [= ->]] & [? [= ->]] & [? [= ->]]).
Qed.

(** X3: the settings and the data file.  In every state the plugin
    reaches, the data file is the file it was loaded from until the first
    edit in the panel, and from then on the file written for the settings
    in force: an edit is saved whole before anything else happens, and
    nothing else writes the settings or the file.  Loading the settings
    again gives the settings in force before the first edit, and after it
    what the JSON file gives back for them; that is the settings in force
    whenever their duration is a finite number, and differs from them when
    it is [Infinity], which the file holds as [null]. *)
Theorem reload_gives_settings (blob : option HighlightOnCopySettings)
    (events : list Event) :
  let st := run v (onload v blob) events in
  data st = (if has_edit events then Some (JSON_image (settings st)) else blob)
  ∧ settings (loadSettings v st)
    = (if has_edit events then JSON_image (settings st) else settings st)
  ∧ (∀ z, duration (settings st) = Some (JS.Num z) →
     settings (loadSettings v st) = settings st)
  ∧ (duration (settings st) = Some JS.PosInfinity → has_edit events = true →
     duration (settings (loadSettings v st)) = Some JS.Null).
Proof.
  cbn zeta.
  destruct (run_data (onload v blob) events) as [Hd Hs].
  destruct (reachable_invariants v blob events) as (_ & _ & Hown).
  cbn zeta in Hown. change (data (onload v blob)) with blob in Hd.
  assert (Hload : settings (loadSettings v (run v (onload v blob) events))
                  = (if has_edit events
                     then JSON_image (settings (run v (onload v blob) events))
                     else settings (run v (onload v blob) events))).
  { unfold loadSettings, loadData. cbn [settings set_settings]. rewrite Hd.
    destruct (has_edit events).
    - apply Object_assign_owns_all.
      destruct Hown as (Hb & Hf & [d Hdur]).
      split_and!; [done|done|]. cbn [JSON_image duration]. rewrite Hdur. eauto.
    - by rewrite Hs. }
  split_and!; [done|done|..].
  - intros z Hz. rewrite Hload. destruct (has_edit events); [|done].
    destruct (settings _) as [b f d]. cbn in *. by rewrite Hz.
  - intros Hinf He. rewrite Hload, He. cbn [JSON_image duration].
    by rewrite Hinf.
Qed.

End DataFile.

Lemma reload_gives_settings_witness :
  let st := run VariantA (onload VariantA None)
              [ChangeDuration "250"; Copy (Some modern_view); Elapse 300] in
  let st2 := run VariantA (onload VariantA None)
               [ChangeDuration (pretty (10 ^ 400)%N)] in
  duration (settings st) = Some (JS.Num 250)
  ∧ settings (loadSettings VariantA st) = settings st
  ∧ duration (settings st2) = Some JS.PosInfinity
  ∧ duration (settings (loadSettings VariantA st2)) = Some JS.Null.
Proof.
  intros st st2.
  destruct (reload_gives_settings VariantA None
              [ChangeDuration "250"; Copy (Some modern_view); Elapse 300])
    as (_ & _ & Hnum & _).
  destruct (reload_gives_settings VariantA None
              [ChangeDuration (pretty (10 ^ 400)%N)])
    as (_ & _ & _ & Hinf).
  assert (H250 : duration (settings st) = Some (JS.Num 250))
    by (by vm_compute).
  assert (Hst2 : duration (settings st2) = Some JS.PosInfinity)
    by (by vm_compute).
  split_and!; [exact H250|exact (Hnum 250 H250)|exact Hst2|].
  exact (Hinf Hst2 eq_refl).
Defined.

(** ** Edits in the panel and the passing of time *)

Section EditsAndTime.
Context (v : Variant).

Lemma foldl_fire_store (s : HighlightOnCopySettings)
    (d : option HighlightOnCopySettings) (l : list Timer) (st : State) :
  foldl fire (set_data d (set_settings s st)) l
  = set_data d (set_settings s (foldl fire st l)).
Proof.
  revert st. induction l as [|tm l IH]; intros st; [done|].
  cbn [foldl]. rewrite <-IH. f_equal.
  unfold fire, run_callback. by destruct (timer_callback tm).
Qed.

Lemma advance_store (s : HighlightOnCopySettings)
    (d : option HighlightOnCopySettings) (t : Z) (st : State) :
  advance t (set_data d (set_settings s st))
  = set_data d (set_settings s (advance t st)).
Proof.
  unfold advance. cbn [timers next_timer set_data set_settings].
  change (set_timers ?l ?n (set_data d (set_settings s st)))
    with (set_data d (set_settings s (set_timers l n st))).
  by rewrite foldl_fire_store.
Qed.

(** X4: an edit in the settings panel and the passing of time commute.
    Waiting and then editing a field gives the same state as editing it
    and then waiting, for each of the three fields: an edit changes the
    settings and the data file and nothing on the page (the root style,
    the root class, the markers, the timers, the handle the plugin holds,
    the clock and the trace are as before), so it never moves, cancels or
    adds a timer, and a highlight that is showing ends when the copy event
    scheduled it. *)
Theorem edit_commutes_with_time (st : State) (dt : Z) (e : Event) :
  is_edit e = true →
  step v (step v st (Elapse dt)) e = step v (step v st e) (Elapse dt)
  ∧ style (step v st e) = style st
  ∧ classList (step v st e) = classList st
  ∧ markers (step v st e) = markers st
  ∧ next_marker (step v st e) = next_marker st
  ∧ timers (step v st e) = timers st
  ∧ next_timer (step v st e) = next_timer st
  ∧ highlightTimeout (step v st e) = highlightTimeout st
  ∧ now (step v st e) = now st
  ∧ trace (step v st e) = trace st.
Proof.
  destruct e as [view|dt'|text|text|text]; try done; intros _;
    cbn [step]; (split; [|by split_and!]).
  - unfold onChange_backgroundColor, saveSettings, saveData. cbn zeta.
    cbn [settings set_settings now set_data].
    by rewrite advance_store, advance_settings.
  - unfold onChange_foregroundColor, saveSettings, saveData. cbn zeta.
    cbn [settings set_settings now set_data].
    by rewrite advance_store, advance_settings.
  - unfold onChange_duration, saveSettings, saveData. cbn zeta.
    cbn [settings set_settings now set_data].
    by rewrite advance_store, advance_settings.
Qed.

End EditsAndTime.

Lemma edit_commutes_with_time_witness :
  let st := onCopy VariantA (Some modern_view) (onload VariantA None) in
  step VariantA (step VariantA st (Elapse 50)) (ChangeDuration "250")
  = step VariantA (step VariantA st (ChangeDuration "250")) (Elapse 50)
  ∧ timers (step VariantA st (ChangeForeground "blue")) = timers st.
Proof.
  intros st.
  destruct (edit_commutes_with_time VariantA st 50 (ChangeDuration "250")
              eq_refl) as (Hcomm & _).
  destruct (edit_commutes_with_time VariantA st 50 (ChangeForeground "blue")
              eq_refl) as (_ & _ & _ & _ & _ & Ht & _).
  split; [exact Hcomm|exact Ht].
Defined.

(** ** Idle and highlighting *)

Section Sessions.
Context (v : Variant).

Lemma filter_complement_nil {A : Type} (P : A → Prop)
    `{!∀ x, Decision (P x)} (l : list A) :
  filter P l = [] → filter (λ x, ¬ P x) l = l.
Proof.
  intros Hnil. apply filter_all. intros x Hx HP.
  by destruct (filter_nil_not_elem_of P l x Hnil HP).
Qed.

Lemma onCopy_highlightTimeout (view : View) (st : State) :
  highlightTimeout (onCopy v (Some view) st) = Some (next_timer st).
Proof.
  rewrite onCopy_cases.
  destruct (highlight_started_fields v st) as (_ & Hh & _).
  case_match; [|done].
  by rewrite (proj1 (proj2 (handleCM5Highlight_frame _ _))).
Qed.

Lemma session_step (st : State) (e : Event) :
  wf st → idle st ∨ highlighting st →
  idle (step v st e) ∨ highlighting (step v st e).
Proof.
  intros Hwf Hst. destruct e as [[view|]|dt|text|text|text]; cbn [step];
    try done.
  - right.
    destruct (onCopy_summary v view st Hwf) as (Hrev & Hc & _ & Hn & _).
    split; [done|]. exists (new_revert_timer st).
    split_and!; [done|by rewrite onCopy_highlightTimeout|].
    rewrite Hn. unfold new_revert_timer. cbn [timer_due].
    pose proof (timer_delay_nonneg (duration (settings st))). lia.
  - set (t := now st + Z.max 0 dt).
    destruct (classList_advance t st) as [Hc Hh]. cbn zeta in Hc, Hh.
    pose proof (revert_timers_advance t st) as Hrev.
    destruct Hst as [(Hc0 & Hh0 & Hr0)|(Hc0 & tm & Hr0 & Hh0 & Hn0)].
    + left. rewrite Hr0, filter_nil in Hc, Hh, Hrev.
      rewrite decide_True in Hc by done. rewrite decide_True in Hh by done.
      split_and!; congruence.
    + rewrite Hr0, filter_cons, filter_nil in Hc, Hh.
      rewrite Hr0, filter_cons, filter_nil in Hrev.
      destruct (decide (timer_due tm ≤ t)) as [Hdue|Hlate].
      * left. rewrite decide_False in Hc by done.
        rewrite decide_False in Hh by done.
        rewrite decide_False in Hrev by tauto.
        split_and!; [rewrite Hc; set_solver|done..].
      * right. rewrite decide_True in Hc by done.
        rewrite decide_True in Hh by done.
        rewrite decide_True in Hrev by done.
        split; [by rewrite Hc|]. exists tm.
        split_and!; [done|congruence|]. rewrite advance_now. lia.
Qed.

(** The two states are kept along every run. *)
Lemma session_run
    (blob : option HighlightOnCopySettings) (events : list Event) :
  let st := run v (onload v blob) events in
  idle st ∨ highlighting st.
Proof.
  cbn zeta.
  assert (H0 : wf (onload v blob)
               ∧ (idle (onload v blob) ∨ highlighting (onload v blob))).
  { split; [apply wf_initial|]. left. split_and!; [set_solver|done..]. }
  revert H0. generalize (onload v blob).
  induction events as [|e events IH]; intros st [Hwf Hst]; [done|].
  apply IH. split; [by apply wf_step|by apply session_step].
Qed.

(** X5: the highlight session is a two-state machine.  Every state the
    plugin reaches is idle (no root class, no handle held, no revert timer
    pending) or highlighting (the root class is there, and exactly one
    revert timer is pending, the one whose handle the plugin holds, with
    its deadline still ahead). *)
Theorem reachable_idle_or_highlighting
    (blob : option HighlightOnCopySettings) (events : list Event) :
  let st := run v (onload v blob) events in
  idle st ∨ highlighting st.
Proof. apply session_run. Qed.

Lemma markers_timed_step (st : State) (e : Event) :
  wf st → markers_timed st → markers_timed (step v st e).
Proof.
  intros Hwf Hst. destruct e as [[view|]|dt|text|text|text]; cbn [step];
    try done.
  - intros m Hm.
    pose proof (onCopy_markers_cases v view st) as Hmk. cbn zeta in Hmk.
    destruct (decide (m < next_marker st)%nat) as [Hlt|Hge].
    + destruct (onCopy_marker v m (Some view) st Hwf Hlt)
        as (Ht & Hin & _ & Hlt').
      split; [|done]. rewrite Ht. by apply Hst, Hin.
    + destruct (marked_selection view) as [[c sel]|] eqn:Hsel.
      * destruct Hmk as (Hmk & Hnm & _). rewrite Hmk, fmap_app in Hm.
        apply elem_of_app in Hm as [Hm|Hm]; [apply Hst in Hm; lia|].
        apply list_elem_of_singleton in Hm. cbn in Hm. subst m.
        assert (Happ : legacy_applies view = true).
        { rewrite legacy_applies_marked_selection, Hsel.
          by rewrite bool_decide_true by eauto. }
        destruct (onCopy_marker_pending v view st Hwf Happ)
          as [_ Ht _ _ Hlt _].
        split; [by rewrite Ht|done].
      * destruct Hmk as (Hmk & _). rewrite Hmk in Hm.
        apply Hst in Hm. lia.
  - set (t := now st + Z.max 0 dt). intros m Hm.
    apply markers_advance in Hm as [Hm Hdue].
    destruct (Hst m Hm) as [Hne Hlt].
    destruct (advance_fields t st) as (_ & _ & _ & Hnm & _).
    rewrite marker_timers_advance, Hnm.
    by rewrite filter_complement_nil.
Qed.

(** X6: the page always comes to rest.  From any state the plugin
    reaches, once the clock has passed every pending deadline no timer is
    left, no marker is left, the root class is gone and the plugin holds
    no handle: every marker and every highlight is taken down by its own
    timer. *)
Theorem page_comes_to_rest (blob : option HighlightOnCopySettings)
    (events : list Event) (t : Z) :
  let st := run v (onload v blob) events in
  (∀ tm, tm ∈ timers st → timer_due tm ≤ t) →
  timers (advance t st) = []
  ∧ markers (advance t st) = []
  ∧ idle (advance t st).
Proof.
  intros st Hall.
  assert (Hinv : wf st ∧ markers_timed st).
  { unfold st. clear Hall st.
    assert (H0 : wf (onload v blob) ∧ markers_timed (onload v blob)).
    { split; [apply wf_initial|]. by intros m ?%elem_of_nil. }
    revert H0. generalize (onload v blob).
    induction events as [|e events IH]; intros st [Hwf Hst]; [done|].
    apply IH. split; [by apply wf_step|by apply markers_timed_step]. }
  destruct Hinv as [Hwf Hmk].
  destruct (advance_fields t st) as (_ & Ht & _).
  assert (Hnone : timers (advance t st) = []).
  { rewrite Ht. apply filter_none. intros tm Htm Hlate. by apply Hlate, Hall. }
  split_and!; [done| |].
  - destruct (markers (advance t st)) as [|x l] eqn:Hl; [done|].
    assert (Hx : marker_id x ∈ marker_id <$> markers (advance t st)).
    { rewrite Hl. cbn. left. }
    apply markers_advance in Hx as [Hx Hdue].
    destruct (Hmk _ Hx) as [Hne _]. destruct Hne.
    rewrite <-Hdue. symmetry. apply filter_all.
    intros tm [_ Htm]%list_elem_of_filter. by apply Hall.
  - destruct (classList_advance t st) as [Hc Hh]. cbn zeta in Hc, Hh.
    assert (Hrev : revert_timers (advance t st) = []).
    { unfold revert_timers. by rewrite Hnone. }
    pose proof (session_run blob events) as Hsess.
    cbn zeta in Hsess. fold st in Hsess.
    destruct Hsess as [(Hc0 & Hh0 & Hr0)|(Hc0 & tm & Hr0 & Hh0 & Hn0)].
    + rewrite Hr0, filter_nil in Hc, Hh.
      rewrite decide_True in Hc by done. rewrite decide_True in Hh by done.
      split_and!; congruence.
    + assert (Htm : tm ∈ timers st).
      { assert (tm ∈ revert_timers st) as H by (rewrite Hr0; left).
        by apply list_elem_of_filter in H as [_ ?]. }
      rewrite Hr0, filter_cons_True in Hc, Hh by by apply Hall.
      rewrite decide_False in Hc by done. rewrite decide_False in Hh by done.
      split_and!; [rewrite Hc; set_solver|done..].
Qed.

End Sessions.

Lemma page_comes_to_rest_witness :
  let view := legacy_view 0 [{| anchor := {| line := 2; ch := 5 |};
                                head := {| line := 1; ch := 3 |} |}] in
  let st := run VariantA (onload VariantA None)
              [Copy (Some view); Elapse 50; Copy (Some view)] in
  (timer_due <$> timers st) = [100; 150; 150]
  ∧ timers (advance 150 st) = []
  ∧ markers (advance 150 st) = [].
Proof.
  intros view st.
  destruct (page_comes_to_rest VariantA None
              [Copy (Some view); Elapse 50; Copy (Some view)] 150)
    as (Ht & Hm & _).
  - intros tm Htm. vm_compute in Htm.
    repeat (apply elem_of_cons in Htm as [->|Htm]; [vm_compute; discriminate|]).
    by apply elem_of_nil in Htm.
  - split_and!; [reflexivity|exact Ht|exact Hm].
Defined.

(** ** Duration text that [parseInt] accepts *)

Section LenientDuration.
Context (v : Variant).

Lemma pretty_N_go_append (x : N) (s t : string) :
  pretty_N_go x s +:+ t = pretty_N_go x (s +:+ t).
Proof.
  revert s. induction (N.lt_wf_0 x) as [x _ IH]. intros s.
  destruct (decide (x = 0)%N) as [->|Hx]; [by rewrite !pretty_N_go_0|].
  rewrite (pretty_N_go_step x s), (pretty_N_go_step x (s +:+ t)) by lia.
  rewrite IH; [done|]. apply N.div_lt; lia.
Qed.

(** The decimal text of a positive number starts with a digit from 1 to
    9. *)
Lemma pretty_N_go_first (x : N) (s : string) :
  (0 < x)%N →
  ∃ a r, pretty_N_go x s = String a r ∧ 49 ≤ JS.code a ≤ 57.
Proof.
  revert s. induction (N.lt_wf_0 x) as [x _ IH]. intros s Hx.
  rewrite pretty_N_go_step by done.
  destruct (decide (x `div` 10 = 0)%N) as [Hz|Hz].
  - rewrite Hz, pretty_N_go_0. eexists _, _. split; [done|].
    assert (Hm : (x `mod` 10 < 10)%N) by by apply N.mod_lt.
    rewrite code_pretty_N_char by done.
    pose proof (div_mod_10 x) as Hdm. rewrite Hz in Hdm.
    revert Hm Hdm. generalize (x `mod` 10)%N. intros; lia.
  - apply IH; [apply N.div_lt; lia|by apply N.neq_0_lt_0].
Qed.

Lemma trim_start_white_space (pad s : string) :
  all_white_space pad = true →
  JS.trim_start (pad +:+ s) = JS.trim_start s.
Proof.
  induction pad as [|a pad IH]; [done|].
  intros [Ha Hpad]%andb_prop.
  change (JS.trim_start (String a pad +:+ s))
    with (if JS.is_white_space a then JS.trim_start (pad +:+ s)
          else String a (pad +:+ s)).
  rewrite Ha. by apply IH.
Qed.

Lemma digit_value_not_digit (a : ascii) :
  not_digit a → JS.digit_value 10 a = None.
Proof.
  unfold not_digit, JS.digit_value. intros Ha.
  destruct (Z.leb_spec 48 (JS.code a)), (Z.leb_spec (JS.code a) 57);
    cbn; try lia;
    repeat match goal with
      | |- context [Z.leb ?x ?y] => destruct (Z.leb_spec x y); cbn
      | |- context [Z.ltb ?x ?y] => destruct (Z.ltb_spec x y); cbn
      end; try done; lia.
Qed.

Lemma parse_digits_stop (s : string) (acc : option Z) :
  ends_digits s → JS.parse_digits 10 s acc = acc.
Proof.
  destruct s as [|a r]; [done|]. cbn.
  intros Ha. by rewrite digit_value_not_digit.
Qed.

(** The digits of [d] followed by [suffix] are read in radix 10 as [d],
    unless they are a lone [0] before an [x] or [X]. *)
Lemma read_decimal (d : N) (suffix : string) :
  ends_digits suffix →
  (d = 0%N → match suffix with
             | String a _ => JS.code a ≠ 120 ∧ JS.code a ≠ 88
             | EmptyString => True
             end) →
  ∃ a r, pretty d +:+ suffix = String a r
         ∧ 48 ≤ JS.code a ≤ 57
         ∧ JS.read_radix (String a r) = (10, String a r)
         ∧ JS.parse_digits 10 (String a r) None = Some (Z.of_N d).
Proof.
  intros Hend Hzero. unfold pretty, pretty_N.
  destruct (decide (d = 0)%N) as [->|Hd].
  - exists "0"%char, suffix.
    split; [done|]. split; [by vm_compute|]. split.
    + unfold JS.read_radix. destruct suffix as [|b r]; [done|].
      destruct (Hzero eq_refl) as [Hx HX].
      rewrite (proj2 (Z.eqb_neq _ 120)), (proj2 (Z.eqb_neq _ 88)) by done.
      by rewrite andb_false_r.
    + change (JS.parse_digits 10 (String "0" suffix) None)
        with (JS.parse_digits 10 suffix (Some 0)).
      by rewrite parse_digits_stop.
  - rewrite pretty_N_go_append. cbn [String.append].
    destruct (pretty_N_go_first d suffix) as (a & r & Heq & Ha); [lia|].
    destruct (parse_digits_pretty_N_go d suffix) as (k & Hk & Hparse); [lia|].
    exists a, r.
    split; [done|]. split; [lia|]. split.
    + unfold JS.read_radix. destruct r as [|b r]; [done|].
      rewrite (proj2 (Z.eqb_neq _ 48)) by lia. done.
    + rewrite <-Heq, Hparse, parse_digits_stop by done.
      cbn; f_equal; lia.
Qed.

Lemma parseInt_lenient (pad : string) (sign : Z) (d : N) (suffix : string) :
  all_white_space pad = true →
  ends_digits suffix →
  (d = 0%N → match suffix with
             | String a _ => JS.code a ≠ 120 ∧ JS.code a ≠ 88
             | EmptyString => True
             end) →
  sign = 1 ∨ sign = -1 →
  JS.parseInt (pad +:+ (if decide (sign = 1) then "" else "-")
                   +:+ pretty d +:+ suffix)
  = JS.round_to_double (sign * Z.of_N d)
  ∧ JS.parseInt (pad +:+ "+" +:+ pretty d +:+ suffix)
    = JS.round_to_double (Z.of_N d).
Proof.
  intros Hpad Hend Hzero Hsign.
  destruct (read_decimal d suffix Hend Hzero) as (a & r & Heq & Ha & Hr & Hp).
  assert (Hws : JS.is_white_space a = false).
  { unfold JS.is_white_space.
    rewrite (proj2 (Z.leb_gt _ 13)), (proj2 (Z.eqb_neq _ 32)),
      (proj2 (Z.eqb_neq _ 160)) by lia.
    by rewrite andb_false_r. }
  assert (Hplain : JS.read_sign (JS.trim_start (String a r))
                   = (1, String a r)).
  { cbn [JS.trim_start]. rewrite Hws. unfold JS.read_sign.
    by rewrite (proj2 (Z.eqb_neq _ 45)), (proj2 (Z.eqb_neq _ 43)) by lia. }
  assert (Hminus : JS.read_sign (JS.trim_start (String "-" (String a r)))
                   = (-1, String a r)) by done.
  assert (Hplus : JS.read_sign (JS.trim_start (String "+" (String a r)))
                  = (1, String a r)) by done.
  unfold JS.parseInt. split.
  - rewrite trim_start_white_space by done. destruct Hsign as [->| ->].
    + rewrite decide_True by done.
      change ("" +:+ pretty d +:+ suffix) with (pretty d +:+ suffix).
      rewrite Heq, Hplain, Hr, Hp. f_equal; lia.
    + rewrite decide_False by done.
      change ("-" +:+ pretty d +:+ suffix)
        with (String "-" (pretty d +:+ suffix)).
      by rewrite Heq, Hminus, Hr, Hp.
  - change ("+" +:+ pretty d +:+ suffix)
      with (String "+" (pretty d +:+ suffix)).
    rewrite trim_start_white_space, Heq, Hplus, Hr, Hp by done.
    f_equal; lia.
Qed.

(** X7: what the duration field accepts besides bare digits.  White space
    before the number and any text after its digits are ignored, and a
    sign is read: [d] and [+d], with such padding, store [d] when binary64
    holds [d], which it does for every [d] up to 2^53, and [-d] stores 0
    for every [d].  (The text after the digits starts with a character
    that is no digit; after a lone [0] it does not start with [x] or [X],
    which would make the number hexadecimal.) *)
Theorem onChange_duration_lenient (pad suffix : string) (d : N)
    (st : State) :
  all_white_space pad = true →
  ends_digits suffix →
  (d = 0%N → match suffix with
             | String a _ => JS.code a ≠ 120 ∧ JS.code a ≠ 88
             | EmptyString => True
             end) →
  (JS.round_to_double (Z.of_N d) = JS.Num (Z.of_N d) →
   duration (settings (onChange_duration v (pad +:+ pretty d +:+ suffix) st))
   = Some (JS.Num (Z.of_N d))
   ∧ duration (settings (onChange_duration v
                           (pad +:+ "+" +:+ pretty d +:+ suffix) st))
     = Some (JS.Num (Z.of_N d)))
  ∧ ((d ≤ 2 ^ 53)%N → JS.round_to_double (Z.of_N d) = JS.Num (Z.of_N d))
  ∧ duration (settings (onChange_duration v
                          (pad +:+ "-" +:+ pretty d +:+ suffix) st))
    = Some (JS.Num 0).
Proof.
  intros Hpad Hend Hzero.
  destruct (parseInt_lenient pad 1 d suffix Hpad Hend Hzero) as [H1 Hplus];
    [by left|].
  destruct (parseInt_lenient pad (-1) d suffix Hpad Hend Hzero) as [Hminus _];
    [by right|].
  rewrite decide_True in H1 by done. rewrite decide_False in Hminus by done.
  change ("" +:+ pretty d +:+ suffix) with (pretty d +:+ suffix) in H1.
  rewrite Z.mul_1_l in H1.
  rewrite !onChange_duration_settings. cbn [duration].
  rewrite !duration_of_text_eq, H1, Hplus, Hminus.
  split_and!.
  - intros ->. split; do 2 f_equal; lia.
  - intros Hle. apply round_to_double_exact.
    assert (Z.of_N d ≤ Z.of_N (2 ^ 53)) by lia.
    change (Z.of_N (2 ^ 53)) with (2 ^ 53) in *. lia.
  - pose proof (round_to_double_sign (-1 * Z.of_N d)) as Hsign.
    destruct (JS.round_to_double (-1 * Z.of_N d)) as [|m| | |];
      try done; [|lia].
    do 2 f_equal. lia.
Qed.



End LenientDuration.

Lemma onChange_duration_lenient_witness :
  duration (settings (onChange_duration VariantA "  250ms"
                        (onload VariantA None))) = Some (JS.Num 250)
  ∧ duration (settings (onChange_duration VariantA "  -250ms"
                          (onload VariantA None))) = Some (JS.Num 0).
Proof.
  destruct (onChange_duration_lenient VariantA "  " "ms" 250
              (onload VariantA None)) as (Hplain & _ & Hminus).
  - reflexivity.
  - cbn. unfold not_digit. vm_compute. intros [_ H]. by apply H.
  - intros H. discriminate H.
  - split; [exact (proj1 (Hplain eq_refl))|exact Hminus].
Defined.


(** Beyond that range the panel and the field part ways: a duration of
    10^21 is shown as [1e+21], which the field reads as 1; and a digit
    string too long for binary64 stores [Infinity], which the data file
    holds as [null]. *)
Example resubmit_exponent :
  let st := onChange_duration VariantA "1000000000000000000000"
              (onload VariantA None) in
  duration (settings st) = Some (JS.Num (10 ^ 21))
  ∧ displayed_duration (settings st) = "1e+21"
  ∧ duration (settings (onChange_duration VariantA
                          (displayed_duration (settings st)) st))
    = Some (JS.Num 1).
Proof. by vm_compute. Qed.

(** ** Unloading *)

Section Unload.

Lemma remove_first_none (id : string) (l : list Element) :
  count_id id l = 0%nat → remove_first id l = None.
Proof.
  unfold count_id. induction l as [|x r IH]; [done|].
  rewrite filter_cons. cbn [remove_first].
  case_decide; [done|]. intros Hr. by rewrite IH.
Qed.

Lemma remove_first_some (id : string) (l : list Element) :
  count_id id l ≠ 0%nat →
  ∃ l', remove_first id l = Some l'
        ∧ count_id id l' = pred (count_id id l)
        ∧ filter (λ x, element_id x ≠ id) l'
          = filter (λ x, element_id x ≠ id) l.
Proof.
  unfold count_id. induction l as [|x r IH]; [done|].
  rewrite !filter_cons. cbn [remove_first].
  destruct (decide (element_id x = id)) as [Hx|Hx].
  - intros _. exists r. rewrite decide_False by tauto. by split_and!.
  - intros Hr. destruct (IH Hr) as (r' & -> & Hc & Hf).
    exists (x :: r'). split; [done|].
    rewrite (filter_cons_False (λ x, element_id x = id)) by done.
    rewrite !(filter_cons_True (λ x, element_id x ≠ id)) by done.
    rewrite decide_True by done. by rewrite Hf.
Qed.

Lemma remove_first_middle (id : string) (l t : list Element) (x : Element) :
  count_id id l = 0%nat → element_id x = id →
  remove_first id (l ++ x :: t) = Some (l ++ t).
Proof.
  unfold count_id. intros Hl Hx. induction l as [|y r IH]; cbn.
  - by rewrite decide_True.
  - rewrite filter_cons in Hl. destruct (decide (element_id y = id)); [done|].
    by rewrite IH.
Qed.

Lemma count_id_app (id : string) (l1 l2 : list Element) :
  count_id id (l1 ++ l2) = (count_id id l1 + count_id id l2)%nat.
Proof. unfold count_id. by rewrite filter_app, length_app. Qed.

Lemma page_eta (p : Page) :
  {| doc_head := doc_head p; doc_body := doc_body p; host := host p |} = p.
Proof. by destruct p. Qed.

(** X9: unloading variant A.  [onunload] takes at most one element out of
    the document, the first in document order with the [id] of the style
    element, and leaves the other elements, in their places, and the root
    (its custom properties, its class, the pending timers) as they are:
    when the first such element is [x] in the head, between [l1] and [l2],
    the head becomes [l1 ++ l2] and the body is as before; when the head
    has none and the first such element of the body is [x], between [l1]
    and [l2], the body becomes [l1 ++ l2] and the head is as before.  On a
    page that had no element with that [id], loading and then unloading
    gives the document back; unloading when there is nothing to remove
    does nothing; unloading twice is unloading once as long as there was
    at most one such element, but a page loaded twice has to be unloaded
    twice. *)
Theorem onunload_A_removes_one (p : Page) :
  let n := count_id STYLE_ID (doc_head p ++ doc_body p) in
  count_id STYLE_ID
    (doc_head (onunload VariantA p) ++ doc_body (onunload VariantA p))
  = pred n
  ∧ host (onunload VariantA p) = host p
  ∧ (∀ l1 x l2,
       doc_head p = l1 ++ x :: l2 → element_id x = STYLE_ID →
       count_id STYLE_ID l1 = 0%nat →
       onunload VariantA p
       = {| doc_head := l1 ++ l2; doc_body := doc_body p; host := host p |})
  ∧ (∀ l1 x l2,
       count_id STYLE_ID (doc_head p) = 0%nat →
       doc_body p = l1 ++ x :: l2 → element_id x = STYLE_ID →
       count_id STYLE_ID l1 = 0%nat →
       onunload VariantA p
       = {| doc_head := doc_head p; doc_body := l1 ++ l2; host := host p |})
  ∧ (n = 0%nat → onunload VariantA p = p)
  ∧ (n = 0%nat → onunload VariantA (injectStyles p) = p)
  ∧ (n = 0%nat →
     onunload VariantA (onload_page VariantA p)
     = {| doc_head := doc_head p; doc_body := doc_body p;
          host := loadSettings VariantA (host p) |})
  ∧ (n = 0%nat →
     onunload VariantA (injectStyles (injectStyles p)) = injectStyles p)
  ∧ ((n ≤ 1)%nat →
     onunload VariantA (onunload VariantA p) = onunload VariantA p).
Proof.
  cbn zeta. rewrite !count_id_app.
  assert (Hone : (count_id STYLE_ID (doc_head (onunload VariantA p))
                  + count_id STYLE_ID (doc_body (onunload VariantA p)))%nat
          = pred (count_id STYLE_ID (doc_head p)
                  + count_id STYLE_ID (doc_body p))
          ∧ host (onunload VariantA p) = host p).
  { unfold onunload.
    destruct (decide (count_id STYLE_ID (doc_head p) = 0%nat)) as [Hh|Hh].
    - rewrite (remove_first_none _ _ Hh).
      destruct (decide (count_id STYLE_ID (doc_body p) = 0%nat)) as [Hb|Hb].
      + rewrite (remove_first_none _ _ Hb). split; [lia|done].
      + destruct (remove_first_some _ _ Hb) as (b & -> & Hc & _).
        cbn [doc_head doc_body host]. split; [lia|done].
    - destruct (remove_first_some _ _ Hh) as (h & -> & Hc & _).
      cbn [doc_head doc_body host]. split; [lia|done]. }
  assert (Hnone : ∀ q : Page,
            count_id STYLE_ID (doc_head q) = 0%nat →
            count_id STYLE_ID (doc_body q) = 0%nat →
            onunload VariantA q = q).
  { intros q Hh Hb. unfold onunload.
    by rewrite (remove_first_none _ _ Hh), (remove_first_none _ _ Hb). }
  destruct Hone as [Hcount Hhost].
  split_and!; [done|done|..].
  - intros l1 x l2 Hhead Hx Hl1. unfold onunload.
    by rewrite Hhead, remove_first_middle.
  - intros l1 x l2 Hhead Hbody Hx Hl1. unfold onunload.
    by rewrite (remove_first_none _ _ Hhead), Hbody, remove_first_middle.
  - intros Hn. apply Hnone; lia.
  - intros Hn. unfold onunload, injectStyles. cbn [doc_head doc_body host].
    rewrite remove_first_middle by (done || lia).
    rewrite app_nil_r. apply page_eta.
  - intros Hn. unfold onunload, onload_page, injectStyles.
    cbn [doc_head doc_body host].
    rewrite remove_first_middle by (done || lia).
    by rewrite app_nil_r.
  - intros Hn. unfold onunload, injectStyles. cbn [doc_head doc_body host].
    rewrite <-app_assoc. cbn [app].
    by rewrite remove_first_middle by (done || lia).
  - intros Hn. apply Hnone; lia.
Qed.

Lemma delete_three_idemp (a b c : string) (m : gmap string string) :
  delete c (delete b (delete a (delete c (delete b (delete a m)))))
  = delete c (delete b (delete a m)).
Proof.
  apply map_eq. intros k. rewrite !lookup_delete.
  by repeat case_decide.
Qed.

Lemma removeProperty_three (a b c : string) (st : State) :
  removeProperty c (removeProperty b (removeProperty a st))
  = set_style (delete c (delete b (delete a (style st)))) st.
Proof. reflexivity. Qed.

Lemma removeProperty_three_idemp (a b c : string) (st : State) :
  removeProperty c (removeProperty b (removeProperty a
    (removeProperty c (removeProperty b (removeProperty a st)))))
  = removeProperty c (removeProperty b (removeProperty a st)).
Proof.
  rewrite !removeProperty_three.
  change (style (set_style ?x st)) with x.
  rewrite delete_three_idemp. reflexivity.
Qed.

(** X10: unloading variant B.  [onunload] leaves none of the three custom
    properties on the root, keeps every other property of the root style,
    and does it again without change.  It does not take down a highlight
    that is showing: the root class, the pending timers and the handle the
    plugin holds are as before, and so is the document. *)
Theorem onunload_B_clears_properties (p : Page) (key : string) :
  let p' := onunload VariantB p in
  style (host p') !! prop_bg VariantB = None
  ∧ style (host p') !! prop_fg VariantB = None
  ∧ style (host p') !! prop_dur VariantB = None
  ∧ (key ≠ prop_bg VariantB → key ≠ prop_fg VariantB →
     key ≠ prop_dur VariantB →
     style (host p') !! key = style (host p) !! key)
  ∧ onunload VariantB p' = p'
  ∧ classList (host p') = classList (host p)
  ∧ timers (host p') = timers (host p)
  ∧ highlightTimeout (host p') = highlightTimeout (host p)
  ∧ doc_head p' = doc_head p ∧ doc_body p' = doc_body p.
Proof.
  cbn zeta. unfold onunload. cbn [host doc_head doc_body prop_bg prop_fg prop_dur].
  split_and!; try reflexivity.
  - rewrite !lookup_removeProperty. by repeat case_decide.
  - rewrite !lookup_removeProperty. by repeat case_decide.
  - rewrite !lookup_removeProperty. by repeat case_decide.
  - intros H1 H2 H3. rewrite !lookup_removeProperty.
    by rewrite !decide_False by done.
  - f_equal. apply removeProperty_three_idemp.
Qed.

End Unload.

Lemma onunload_A_removes_one_witness :
  let p := {| doc_head := [{| element_id := "theme"; textContent := "" |}];
              doc_body := []; host := onload VariantA None |} in
  let sheet := {| element_id := STYLE_ID; textContent := STYLE_TEXT |} in
  let other := {| element_id := STYLE_ID; textContent := "" |} in
  let q := {| doc_head := [{| element_id := "theme"; textContent := "" |}];
              doc_body := [sheet; other]; host := onload VariantA None |} in
  onunload VariantA (injectStyles p) = p
  ∧ onunload VariantA p = p
  ∧ onunload VariantA (injectStyles (injectStyles p)) = injectStyles p
  ∧ onunload VariantA (onunload VariantA (injectStyles p))
    = onunload VariantA (injectStyles p)
  ∧ onunload VariantA (injectStyles (injectStyles p))
    = {| doc_head := doc_head p ++ [sheet]; doc_body := doc_body p;
         host := host p |}
  ∧ onunload VariantA q
    = {| doc_head := doc_head q; doc_body := [other]; host := host q |}.
Proof.
  intros p sheet other q.
  destruct (onunload_A_removes_one p)
    as (_ & _ & _ & _ & Hnoop & Hround & _ & Htwice & _).
  destruct (onunload_A_removes_one (injectStyles p))
    as (_ & _ & _ & _ & _ & _ & _ & _ & Hidem).
  destruct (onunload_A_removes_one (injectStyles (injectStyles p)))
    as (_ & _ & Hhead & _).
  destruct (onunload_A_removes_one q) as (_ & _ & _ & Hbody & _).
  split_and!.
  - apply Hround. reflexivity.
  - apply Hnoop. reflexivity.
  - apply Htwice. reflexivity.
  - apply Hidem. vm_compute. lia.
  - apply (Hhead (doc_head p) sheet [sheet]); reflexivity.
  - apply (Hbody [] sheet [other]); reflexivity.
Defined.

Lemma onunload_B_clears_properties_witness :
  let st := onCopy VariantB (Some modern_view)
              (onload VariantB
                 (Some {| backgroundColor := Some "red";
                          foregroundColor := Some "blue";
                          duration := Some (JS.Num 200) |})) in
  let p := {| doc_head := []; doc_body := []; host := st |} in
  style st !! "--highlight-on-copy-bg" = Some "red"
  ∧ style (host (onunload VariantB p)) !! "--highlight-on-copy-bg" = None
  ∧ style (host (onunload VariantB p)) !! "color"
    = style st !! "color".
Proof.
  intros st p.
  destruct (onunload_B_clears_properties p "color") as (Hbg & _ & _ & Hkeep & _).
  split_and!; [by vm_compute|exact Hbg|].
  apply Hkeep; discriminate.
Defined.

(** ** What a copy event touches *)

Section CopyFrame.
Context (v : Variant).

(** X11: a copy event never writes the settings or the data file and
    takes no time, whatever view is active; with no active view it changes
    nothing at all. *)
Theorem onCopy_leaves_settings (view : option View) (st : State) :
  settings (onCopy v view st) = settings st
  ∧ data (onCopy v view st) = data st
  ∧ now (onCopy v view st) = now st
  ∧ onCopy v None st = st.
Proof.
  split_and!; [apply onCopy_settings|apply onCopy_data|apply onCopy_now|done].
Qed.

(** X12: only a copy event with a view changes the style of the root.
    Time passing, and with it the end of a highlight and the clearing of a
    marker, edits in the panel and copy events with no view leave every
    property of the root style as it is: the three custom properties stay
    as the last copy event set them. *)
Theorem style_changes_only_on_copy (st : State) (e : Event) :
  (∀ view, e ≠ Copy (Some view)) →
  style (step v st e) = style st.
Proof.
  intros He. destruct e as [[view|]|dt|text|text|text]; cbn [step];
    try done.
  - by destruct (He view).
  - unfold advance. cbn [style set_now].
    by destruct (foldl_fire_frame
      (filter (λ tm, timer_due tm ≤ now st + Z.max 0 dt) (timers st))
      (set_timers (filter (λ tm, ¬ timer_due tm ≤ now st + Z.max 0 dt)
                     (timers st)) (next_timer st) st)) as (_ & _ & -> & _).
Qed.

End CopyFrame.

Lemma style_changes_only_on_copy_witness :
  let st := onCopy VariantA (Some modern_view) (onload VariantA None) in
  style (step VariantA st (Elapse 100)) !! "--hdur" = Some "100ms"
  ∧ ACTIVE ∉ classList (step VariantA st (Elapse 100)).
Proof.
  intros st.
  rewrite (style_changes_only_on_copy VariantA st (Elapse 100))
    by discriminate.
  split; by vm_compute.
Defined.
